(** * A conversational search assistant: the turn pipeline of [main.py]

    The development embeds the functions of [src/main.py] that carry the
    program's logic, and the input handler of its script:

    - [truncate_search_results] (lines 27-38), the character-budget cut;
    - [extract_key_info] (lines 40-48), the sentence-based condenser;
    - [chatbot] (lines 52-111), the single node of the state graph, which
      calls the search tool and the language model;
    - the handler of a user input (lines 141-165), which invokes the graph.

    Python strings are sequences of Unicode code points; they are lists of
    code points here.  The two external collaborators ([search.invoke] and
    [llm.invoke]) are calls whose answer the program does not control: a
    turn is a tree of such calls, and a run of the tree against an
    environment records every call that was made. *)

From Stdlib Require Import ZArith NArith List String Ascii Bool Lia.
From stdpp Require Import gmap.
Import ListNotations.

Local Open Scope nat_scope.

(** ** Python strings *)

(** A [str] is a list of code points. *)
Abbreviation char := N (only parsing).
Abbreviation str := (list N) (only parsing).

(** Literals of the source are written as Rocq strings and read as the
    code points of their (ASCII) characters. *)
Definition py (s : string) : str :=
  List.map N_of_ascii (list_ascii_of_string s).

Definition dot : char := 46%N.
Definition blank : char := 32%N.

(** [str.isspace] for one code point: the characters [str.strip()] removes
    (CPython's [_Py_ascii_whitespace] table and [_PyUnicode_IsWhitespace]). *)
Definition isspace (c : char) : bool :=
  ((9 <=? c) && (c <=? 13) || (28 <=? c) && (c <=? 32)
   || (c =? 133) || (c =? 160) || (c =? 5760)
   || (8192 <=? c) && (c <=? 8202)
   || (c =? 8232) || (c =? 8233) || (c =? 8239) || (c =? 8287)
   || (c =? 12288))%N.

(** [s.lstrip()]: drop the leading whitespace. *)
Fixpoint lstrip (s : str) : str :=
  match s with
  | [] => []
  | c :: s' => if isspace c then lstrip s' else s
  end.

(** [s.rstrip()]: drop the trailing whitespace. *)
Fixpoint rstrip (s : str) : str :=
  match s with
  | [] => []
  | c :: s' =>
      match rstrip s' with
      | [] => if isspace c then [] else [c]
      | t => c :: t
      end
  end.

(** [s.strip()]. *)
Definition strip (s : str) : str := rstrip (lstrip s).

(** [s.split(sep)] for a separator of one character: the fragments between
    the occurrences of [sep], in order; [n] occurrences give [n + 1]
    fragments, so the empty string gives one empty fragment. *)
Fixpoint split (sep : char) (s : str) : list str :=
  match s with
  | [] => [[]]
  | c :: s' =>
      if (c =? sep)%N then [] :: split sep s'
      else match split sep s' with
           | [] => [[c]]
           | f :: fs => (c :: f) :: fs
           end
  end.

(** [sep.join(parts)]. *)
Fixpoint join (sep : str) (parts : list str) : str :=
  match parts with
  | [] => []
  | [p] => p
  | p :: ps => p ++ sep ++ join sep ps
  end.

(** [len(s)] as a Python integer. *)
Definition len (s : str) : Z := Z.of_nat (length s).

(** [s[:stop]]: a negative [stop] counts from the end, and both ends are
    clamped to the string. *)
Definition slice_to (s : str) (stop : Z) : str :=
  if (0 <=? stop)%Z then firstn (Z.to_nat stop) s
  else firstn (Z.to_nat (len s + stop)) s.

(** [s.rfind(c)]: the highest index at which [c] occurs, or [-1]. *)
Fixpoint rfind (c : char) (s : str) : Z :=
  match s with
  | [] => (-1)%Z
  | x :: s' =>
      let r := rfind c s' in
      if (0 <=? r)%Z then (r + 1)%Z
      else if (x =? c)%N then 0%Z else (-1)%Z
  end.

(** ** The result condenser: [extract_key_info] *)

(** The list comprehension of line 43:
    [[s.strip() for s in search_result.split('.') if len(s.strip()) > 20]]. *)
Definition sentences_of (search_result : str) : list str :=
  List.map strip
    (List.filter (fun s => (20 <? len (strip s))%Z) (split dot search_result)).

Definition extract_key_info (search_result : str) : str :=
  let sentences := sentences_of search_result in
  let key_sentences := firstn 5 sentences in
  match key_sentences with
  | [] => slice_to search_result 500
  | _ :: _ => join (py ". ") key_sentences ++ py "."
  end.

(** ** Exceptions and results *)

(** The exceptions the model distinguishes: the [OverflowError] of an
    integer too large for a float, the [IndexError] of a list index out of
    range, and any other instance of [Exception] (the collaborators raise
    these), each with its message. *)
Inductive exn : Type :=
| OverflowError (message : str)
| IndexError (message : str)
| Exception (message : str).

Inductive result (A : Type) : Type :=
| Ok (a : A)
| Raised (e : exn).
Arguments Ok {A} a.
Arguments Raised {A} e.

(** ** The float arithmetic of line 35

    [max_chars * 0.7] converts the integer to a binary64 float, multiplies
    two floats, and [last_period > ...] compares an integer with a float
    exactly.  A finite float is a dyadic number [mant * 2 ^ expo]. *)
Record float : Type := { mant : Z; expo : Z }.

(** Rounding of [m * 2 ^ e] to 53 significant bits, to nearest, ties to
    even (the exponent range is not limited here). *)
Definition round_to_double (m e : Z) : float :=
  let a := Z.abs m in
  let excess := (Z.log2 a + 1 - 53)%Z in
  if (excess <=? 0)%Z then {| mant := m; expo := e |}
  else
    let q := (a / 2 ^ excess)%Z in
    let r := (a mod 2 ^ excess)%Z in
    let half := (2 ^ (excess - 1))%Z in
    let q' := if ((half <? r) || (r =? half) && Z.odd q)%Z then (q + 1)%Z else q in
    {| mant := (Z.sgn m * q')%Z; expo := (e + excess)%Z |}.

(** [float(n)] for an integer ([PyLong_AsDouble]): correctly rounded, and
    an [OverflowError] when the rounded value reaches [2 ^ 1024]. *)
Definition float_of_int (n : Z) : result float :=
  let f := round_to_double n 0 in
  if (2 ^ 1024 <=? Z.abs (mant f) * 2 ^ expo f)%Z
  then Raised (OverflowError (py "int too large to convert to float"))
  else Ok f.

(** The literal [0.7]: the double [0x1.6666666666666p-1]. *)
Definition float_0_7 : float := {| mant := 3152519739159347; expo := -52 |}.

(** The product of two floats, correctly rounded.  The callers multiply
    [float(n)] by [0.7]: the product is zero or of magnitude between [0.7]
    and [2 ^ 1024], so it neither overflows nor is subnormal. *)
Definition float_mul (x y : float) : float :=
  round_to_double (mant x * mant y) (expo x + expo y).

(** [i > f] for an integer [i] and a float [f]: Python compares the two
    numbers exactly. *)
Definition int_gt_float (i : Z) (f : float) : bool :=
  if (0 <=? expo f)%Z then (mant f * 2 ^ expo f <? i)%Z
  else (mant f <? i * 2 ^ (- expo f))%Z.

(** ** The character-budget cut: [truncate_search_results] *)

(** The test of line 35, [last_period > max_chars * 0.7]. *)
Definition past_70_percent (last_period max_chars : Z) : result bool :=
  match float_of_int max_chars with
  | Raised e => Raised e
  | Ok fmax => Ok (int_gt_float last_period (float_mul fmax float_0_7))
  end.

Definition truncate_search_results (search_result : str) (max_chars : Z)
  : result str :=
  if (len search_result <=? max_chars)%Z then Ok search_result
  else
    let truncated := slice_to search_result max_chars in
    let last_period := rfind dot truncated in
    match past_70_percent last_period max_chars with
    | Raised e => Raised e
    | Ok true => Ok (slice_to truncated (last_period + 1))
    | Ok false => Ok (truncated ++ py "...")
    end.

(** The default budget of the signature, [max_chars: int = 1500]. *)
Definition default_max_chars : Z := 1500.

(** ** Messages and conversations *)

(** The classes of the objects that expose a [content] attribute: the two
    message classes the program creates, and any other class. *)
Inductive message_class : Type := HumanMessage | AIMessage | OtherClass.

(** The three shapes [chatbot] accepts for an element of the conversation
    (lines 62-67): an object with a [content] attribute, a [dict], and any
    other value, for which [text] is what [str()] gives.  Contents are
    text, as [State] and the message classes declare them. *)
Inductive message : Type :=
| Message (cls : message_class) (content : str)
| DictMessage (fields : gmap (list N) (list N))
| RawValue (text : str).

Inductive role : Type := user | assistant.

(** Line 136: ["user" if isinstance(msg, HumanMessage) else "assistant"]. *)
Definition role_of (msg : message) : role :=
  match msg with
  | Message HumanMessage _ => user
  | _ => assistant
  end.

(** The [State] dictionary, with its one key. *)
Record State : Type := { messages : list message }.

(** What [llm.invoke] returns: an object with a [content] attribute, or any
    other value, for which [text] is what [str()] gives. *)
Inductive response : Type :=
| WithContent (content : str)
| Plain (text : str).

(** ** Turns: programs that call the collaborators *)

(** A turn returns, raises, or calls one of the two collaborators and goes
    on with the answer, which is a value or an exception. *)
Inductive turn (A : Type) : Type :=
| Return (a : A)
| Raise (e : exn)
| SearchInvoke (query : str) (k : result str -> turn A)
| LlmInvoke (prompt : str) (k : result response -> turn A).
Arguments Return {A} a.
Arguments Raise {A} e.
Arguments SearchInvoke {A} query k.
Arguments LlmInvoke {A} prompt k.

Definition of_result {A : Type} (r : result A) : turn A :=
  match r with
  | Ok a => Return a
  | Raised e => Raise e
  end.

(** [search.invoke(query)] and [llm.invoke(prompt)]. *)
Definition search_invoke (query : str) : turn str :=
  SearchInvoke query of_result.
Definition llm_invoke (prompt : str) : turn response :=
  LlmInvoke prompt of_result.

Fixpoint bind {A B : Type} (t : turn A) (f : A -> turn B) : turn B :=
  match t with
  | Return a => f a
  | Raise e => Raise e
  | SearchInvoke q k => SearchInvoke q (fun r => bind (k r) f)
  | LlmInvoke p k => LlmInvoke p (fun r => bind (k r) f)
  end.

(** [try: body / except Exception as e: handler]: every exception of the
    model is an instance of [Exception]. *)
Fixpoint try_except {A : Type} (body : turn A) (handler : exn -> turn A)
  : turn A :=
  match body with
  | Return a => Return a
  | Raise e => handler e
  | SearchInvoke q k => SearchInvoke q (fun r => try_except (k r) handler)
  | LlmInvoke p k => LlmInvoke p (fun r => try_except (k r) handler)
  end.

Declare Scope turn_scope.
Delimit Scope turn_scope with turn.
Notation "x <- c ;; k" := (bind c (fun x => k))
  (at level 100, c at next level, right associativity) : turn_scope.

(** ** The turn processor: [chatbot] *)

Definition greeting : str :=
  py "Hi! Ask me anything and I'll search for the latest information.".
Definition search_fallback : str := py "Search temporarily unavailable.".
Definition llm_fallback : str :=
  py "I encountered an error generating the response. Please try rephrasing your question.".

(** Lines 62-67, the extraction of the user question. *)
Definition user_question_of (last_message : message) : str :=
  match last_message with
  | Message _ content => content
  | DictMessage fields => default [] (fields !! py "content")
  | RawValue text => text
  end.

(** Lines 85-97, the f-string of the prompt. *)
Definition system_prompt (optimized_search_result user_question : str) : str :=
  py "Based on the search results below, provide a concise, well-structured answer to the user's question.

SEARCH RESULTS:
" ++ optimized_search_result ++ py "

USER QUESTION: " ++ user_question ++ py "

Instructions:
- Keep response under 300 words
- Focus on the most recent and relevant information
- Use clear, structured formatting
- If search results are limited, acknowledge this
".

(** Line 103: [getattr(lc_response, "content", str(lc_response))]. *)
Definition content_of (lc_response : response) : str :=
  match lc_response with
  | WithContent content => content
  | Plain text => text
  end.

(** The node function.  The [log] calls of the source write to the logging
    subsystem only and are left out; the slice [user_question[:100]] one of
    them takes is defined on every text. *)
Definition chatbot (state : State) : turn State :=
  match messages state with
  | [] => Return {| messages := [Message AIMessage greeting] |}
  | _ :: _ =>
      match last (messages state) with
      | None => Raise (IndexError (py "list index out of range"))
      | Some last_message =>
          let user_question := user_question_of last_message in
          (optimized_search_result <-
             try_except
               (raw_search_result <- search_invoke user_question ;;
                Return (extract_key_info raw_search_result))
               (fun _ => Return search_fallback) ;;
           content <-
             try_except
               (lc_response <-
                  llm_invoke (system_prompt optimized_search_result user_question) ;;
                Return (content_of lc_response))
               (fun _ => Return llm_fallback) ;;
           Return {| messages := messages state ++ [Message AIMessage content] |})%turn
      end
  end.

(** ** Running a turn against an environment *)

(** What a run records: each call with its argument and its answer. *)
Inductive call : Type :=
| SearchCall (query : str) (answer : result str)
| LlmCall (prompt : str) (answer : result response).

Section Run.
(** The outside world has a state of its own, which the collaborators
    read and change: the same query need not get the same answer twice. *)
Context {World : Type}.
Variable search_tool : str -> World -> result str * World.
Variable language_model : str -> World -> result response * World.

Fixpoint run {A : Type} (t : turn A) (w : World)
  : result A * World * list call :=
  match t with
  | Return a => (Ok a, w, [])
  | Raise e => (Raised e, w, [])
  | SearchInvoke q k =>
      let (r, w1) := search_tool q w in
      let '(x, w2, calls) := run (k r) w1 in
      (x, w2, SearchCall q r :: calls)
  | LlmInvoke p k =>
      let (r, w1) := language_model p w in
      let '(x, w2, calls) := run (k r) w1 in
      (x, w2, LlmCall p r :: calls)
  end.

Definition outcome {A : Type} (t : turn A) (w : World) : result A :=
  fst (fst (run t w)).
Definition calls_of {A : Type} (t : turn A) (w : World) : list call :=
  snd (run t w).
End Run.

(** ** Notions the properties are stated with *)

(** [sub] occurs in [s] as a contiguous piece ([sub in s] in Python). *)
Definition occurs_in (sub s : str) : Prop :=
  exists pre post, s = pre ++ sub ++ post.

(** The text ends with the sentence terminator. *)
Definition ends_with_dot (s : str) : Prop := last s = Some dot.

(** What the condenser keeps: a piece of text without a terminator inside,
    without whitespace around it, and more than 20 characters long. *)
Definition is_sentence (s : str) : Prop :=
  ~ In dot s /\ strip s = s /\ 20 < length s.

(** The condenser in the words of its description: split on the
    terminator, trim every fragment, keep the trimmed fragments of at least
    [21] characters, at most the first five of them, and join them with a
    terminator and a blank, closing with a terminator; without such a
    fragment, the first [500] characters of the input. *)
Definition qualifying_fragments (text : str) : list str :=
  List.filter (fun f => 21 <=? length f) (List.map strip (split dot text)).

Definition condense (text : str) : str :=
  match firstn 5 (qualifying_fragments text) with
  | [] => firstn 500 text
  | kept => join [dot; blank] kept ++ [dot]
  end.

(** The reading under which a fragment of exactly [20] characters
    qualifies: whenever some fragment has at least [20] characters, the
    result is made of qualifying fragments and ends with the terminator;
    otherwise it is the first [500] characters. *)
Definition fragments_of_20_qualify (text : str) : Prop :=
  let qualifying := List.filter (fun f => 20 <=? length f) (split dot text) in
  match qualifying with
  | [] => extract_key_info text = firstn 500 text
  | _ :: _ => ends_with_dot (extract_key_info text)
  end.



(** Two texts with a terminator exactly on the 70 percent mark: at index
    63 of a window of 90, and at index 7 of a window of 10. *)
Definition text_63_of_90 : str :=
  List.repeat 97%N 63 ++ [dot] ++ List.repeat 98%N 40.
Definition text_7_of_10 : str :=
  List.repeat 97%N 7 ++ [dot] ++ List.repeat 98%N 10.

(** What a turn makes of the two answers it gets: the condensed search
    result, or the fallback text when the search raised; the content of the
    model's response, or the fallback text when the model raised. *)
Definition condensed_of (answer : result str) : str :=
  match answer with
  | Ok raw_search_result => extract_key_info raw_search_result
  | Raised _ => search_fallback
  end.

Definition reply_of (answer : result response) : str :=
  match answer with
  | Ok lc_response => content_of lc_response
  | Raised _ => llm_fallback
  end.

(** ** A scenario and some environments *)

Definition france_question : str := py "What is the capital of France?".
Definition france_search_result : str :=
  py "Paris is the capital of France. It has a population of over 2 million. The Eiffel Tower is located there.".
Definition france_sentences : list str :=
  [ py "Paris is the capital of France";
    py "It has a population of over 2 million";
    py "The Eiffel Tower is located there" ].

(** Environments whose world counts the calls made so far. *)
Definition search_france (query : str) (w : nat) : result str * nat :=
  (Ok france_search_result, S w).
Definition search_down (query : str) (w : nat) : result str * nat :=
  (Raised (Exception (py "connection timed out")), S w).
Definition model_paris (prompt : str) (w : nat) : result response * nat :=
  (Ok (WithContent (py "Paris.")), S w).
Definition model_down (prompt : str) (w : nat) : result response * nat :=
  (Raised (Exception (py "model not found")), S w).

Definition france_state : State :=
  {| messages := [Message HumanMessage france_question] |}.

(** ** The input handler of the Streamlit script (lines 141-165)

    The script keeps the conversation in [st.session_state.lc_messages].
    On a user input it appends a [HumanMessage], invokes the compiled graph
    on the conversation and takes the messages of the state it returns; any
    exception of the [try] block is answered by appending an apology.  The
    rendering calls ([st.markdown], [st.chat_message], [st.spinner],
    [st.error]) do not touch the conversation and are left out.  What
    [graph.invoke] does is the business of the graph library: the handler
    is stated for any [graph_invoke]. *)

Definition ui_error_msg : str :=
  py "I'm experiencing technical difficulties. Please try again in a moment.".

(** Running a computation and keeping what it raised as a value: the
    statements of a [try] block up to the first one that changes the
    session. *)
Definition attempt {A : Type} (t : turn A) : turn (result A) :=
  try_except (a <- t ;; Return (Ok a))%turn (fun e => Return (Raised e)).

(** Line 156, [st.session_state.lc_messages[-1].content]: an [IndexError]
    on the empty list, an [AttributeError] on a last element without a
    [content] attribute. *)
Definition last_content (lc_messages : list message) : result str :=
  match last lc_messages with
  | None => Raised (IndexError (py "list index out of range"))
  | Some (Message _ content) => Ok content
  | Some _ =>
      Raised (Exception (py "AttributeError: object has no attribute 'content'"))
  end.

(** Lines 144-165, the body of [if user_input:], from the conversation
    before the input to the conversation after it.  The [except] clause
    appends to the list the session holds when the exception is raised:
    the old list with the user message when [graph.invoke] raised, the new
    list when line 156 did. *)
Definition answer_input (graph_invoke : State -> turn State)
    (lc_messages : list message) (user_text : str) : turn (list message) :=
  let with_input := lc_messages ++ [Message HumanMessage user_text] in
  (invoked <- attempt (graph_invoke {| messages := with_input |}) ;;
   match invoked with
   | Raised _ => Return (with_input ++ [Message AIMessage ui_error_msg])
   | Ok new_state =>
       let returned := messages new_state in
       try_except
         (ai_reply <- of_result (last_content returned) ;; Return returned)
         (fun _ => Return (returned ++ [Message AIMessage ui_error_msg]))
   end)%turn.

(** Lines 141-165.  [st.chat_input] gives [None] when nothing was
    submitted; the guard [if user_input:] of line 143 skips [None] and the
    empty string, and the conversation stays as it is. *)
Definition on_user_input (graph_invoke : State -> turn State)
    (lc_messages : list message) (user_input : option str)
  : turn (list message) :=
  match user_input with
  | Some (c :: rest) => answer_input graph_invoke lc_messages (c :: rest)
  | Some [] => Return lc_messages
  | None => Return lc_messages
  end.


(** A graph that fails, for the examples. *)
Definition graph_down (state : State) : turn State :=
  Raise (Exception (py "graph execution failed")).

(** A conversation of one complete turn, for the examples. *)
Definition one_turn : list message :=
  [ Message HumanMessage (py "Hello"); Message AIMessage (py "Hi there.") ].

(** ** The extraction of the question on values of any type (lines 59-69)

    [chatbot] above takes the contents of messages as text.  The tests of
    lines 62-67 themselves accept any value, and line 69, which is outside
    both [try] blocks, slices what was extracted. *)

(** A Python value, as far as lines 62-69 use it: a [str], or a value of
    another type, of which the code needs whether it supports slicing
    ([None] and numbers do not, lists do) and what [str()] gives for it. *)
Inductive value : Type :=
| Text (s : str)
| NonText (sliceable : bool) (as_text : str).

Definition none_value : value := NonText false (py "None").

(** The last element of the conversation by the tests of lines 62 and 64:
    an object with a [content] attribute, a [dict], or anything else, for
    which [text] is what [str()] gives. *)
Inductive received : Type :=
| HasContent (content : value)
| Mapping (fields : gmap (list N) value)
| Other (text : str).

(** Lines 62-67. *)
Definition extracted_question (last_message : received) : value :=
  match last_message with
  | HasContent content => content
  | Mapping fields => default (Text []) (fields !! py "content")
  | Other text => Text text
  end.

(** Line 69, [user_question[:100]]: a value that does not support slicing
    raises a [TypeError]. *)
Definition sliced_for_log (user_question : value) : result unit :=
  match user_question with
  | Text _ => Ok tt
  | NonText true _ => Ok tt
  | NonText false _ =>
      Raised (Exception (py "TypeError: object is not subscriptable"))
  end.

(** Lines 59-69: the question with which the turn goes on to the search,
    or the exception that leaves [chatbot]. *)
Definition question_step (last_message : received) : result value :=
  match sliced_for_log (extracted_question last_message) with
  | Ok _ => Ok (extracted_question last_message)
  | Raised e => Raised e
  end.

(** The messages with text contents among the values. *)
Definition received_of (msg : message) : received :=
  match msg with
  | Message _ content => HasContent (Text content)
  | DictMessage fields => Mapping (Text <$> fields)
  | RawValue text => Other text
  end.

(** The content the extraction looks at is text (or absent, for a
    mapping). *)
Definition textual (last_message : received) : Prop :=
  match last_message with
  | HasContent (Text _) => True
  | HasContent (NonText _ _) => False
  | Mapping fields =>
      match fields !! py "content" with
      | Some (NonText _ _) => False
      | _ => True
      end
  | Other _ => True
  end.


(** * Properties of the string primitives *)

Section SplitFacts.
Variable sep : N.

Lemma split_not_nil (s : list N) : split sep s <> [].
Proof.
  destruct s as [|c s]; simpl; [discriminate|].
  destruct (c =? sep)%N; [discriminate|].
  destruct (split sep s); discriminate.
Qed.

Lemma split_cons_sep (s : list N) : split sep (sep :: s) = [] :: split sep s.
Proof. simpl. rewrite N.eqb_refl. reflexivity. Qed.

Lemma split_cons_other (c : N) (s : list N) :
  c <> sep ->
  exists f fs, split sep s = f :: fs /\ split sep (c :: s) = (c :: f) :: fs.
Proof.
  intros Hc. simpl.
  destruct (N.eqb_spec c sep) as [->|_]; [contradiction|].
  destruct (split sep s) as [|f fs] eqn:E.
  - exfalso. exact (split_not_nil s E).
  - exists f, fs. split; reflexivity.
Qed.

(** No fragment contains the separator. *)
Lemma split_no_sep (s : list N) : Forall (fun f => ~ In sep f) (split sep s).
Proof.
  induction s as [|c s IH]; simpl.
  - constructor; [intros [] | constructor].
  - destruct (N.eqb_spec c sep) as [->|Hc].
    + constructor; [intros [] | exact IH].
    + destruct (split sep s) as [|f fs]; [constructor; [|constructor]|].
      * intros [H|[]]. congruence.
      * inversion IH as [|? ? Hf Hfs]; subst.
        constructor; [|exact Hfs].
        intros [H|H]; [congruence | exact (Hf H)].
Qed.

(** Splitting a text whose first separator is known. *)
Lemma split_app_sep (a b : list N) :
  ~ In sep a -> split sep (a ++ sep :: b) = a :: split sep b.
Proof.
  induction a as [|c a IH]; intros Ha.
  - apply split_cons_sep.
  - change ((c :: a) ++ sep :: b) with (c :: (a ++ sep :: b)).
    simpl. destruct (N.eqb_spec c sep) as [->|_].
    + exfalso. apply Ha. left. reflexivity.
    + rewrite IH; [reflexivity|]. intros H. apply Ha. right. exact H.
Qed.

(** Cutting the text keeps the leading fragments, shortens one fragment
    and drops those after it. *)
Lemma split_firstn (n : nat) (s : list N) :
  exists init f t tail,
    split sep (firstn n s) = init ++ [f] /\
    split sep s = init ++ (f ++ t) :: tail.
Proof.
  revert n. induction s as [|c s IH]; intros n.
  - exists [], [], [], []. rewrite firstn_nil. split; reflexivity.
  - destruct n as [|n].
    + destruct (split sep (c :: s)) as [|f tail] eqn:E.
      * exfalso. exact (split_not_nil _ E).
      * exists [], [], f, tail. split; reflexivity.
    + destruct (IH n) as (init & f & t & tail & E1 & E2).
      change (firstn (S n) (c :: s)) with (c :: firstn n s).
      destruct (N.eq_dec c sep) as [->|Hc].
      * exists ([] :: init), f, t, tail.
        rewrite !split_cons_sep, E1, E2. split; reflexivity.
      * destruct (split_cons_other c (firstn n s) Hc) as (g1 & gs1 & F1 & ->).
        destruct (split_cons_other c s Hc) as (g2 & gs2 & F2 & ->).
        rewrite F1 in E1. rewrite F2 in E2.
        destruct init as [|i0 init]; simpl in E1, E2.
        -- injection E1 as -> ->. injection E2 as -> ->.
           exists [], (c :: f), t, tail. split; reflexivity.
        -- injection E1 as -> ->. injection E2 as -> ->.
           exists ((c :: i0) :: init), f, t, tail. split; reflexivity.
Qed.
End SplitFacts.

Section StripFacts.

Lemma lstrip_head (s : list N) :
  lstrip s = [] \/ exists c t, lstrip s = c :: t /\ isspace c = false.
Proof.
  induction s as [|c s IH]; simpl; [left; reflexivity|].
  destruct (isspace c) eqn:E; [exact IH|].
  right. exists c, s. split; [reflexivity | exact E].
Qed.

Lemma lstrip_fixed (c : N) (t : list N) :
  isspace c = false -> lstrip (c :: t) = c :: t.
Proof. intros E. simpl. rewrite E. reflexivity. Qed.

Lemma rstrip_head (c : N) (t : list N) :
  isspace c = false -> exists t', rstrip (c :: t) = c :: t'.
Proof.
  intros E. simpl. destruct (rstrip t) as [|x t'].
  - rewrite E. exists []. reflexivity.
  - exists (x :: t'). reflexivity.
Qed.

Lemma rstrip_idem (s : list N) : rstrip (rstrip s) = rstrip s.
Proof.
  induction s as [|c s IH]; [reflexivity|].
  simpl. destruct (rstrip s) as [|x t] eqn:E.
  - destruct (isspace c) eqn:Ec; simpl; [reflexivity|].
    rewrite Ec. reflexivity.
  - change (rstrip (c :: x :: t)) with
      (match rstrip (x :: t) with
       | [] => if isspace c then [] else [c]
       | y :: u => c :: y :: u
       end).
    rewrite IH. reflexivity.
Qed.

Lemma strip_idem (s : list N) : strip (strip s) = strip s.
Proof.
  unfold strip.
  destruct (lstrip_head s) as [->|(c & t & -> & Ec)]; [reflexivity|].
  destruct (rstrip_head c t Ec) as (t' & E).
  rewrite E, (lstrip_fixed c t' Ec), <- E. apply rstrip_idem.
Qed.

Lemma strip_cons_space (c : N) (s : list N) :
  isspace c = true -> strip (c :: s) = strip s.
Proof. intros E. unfold strip. simpl. rewrite E. reflexivity. Qed.

Lemma strip_nil : strip [] = [].
Proof. reflexivity. Qed.

Lemma lstrip_In (c : N) (s : list N) : In c (lstrip s) -> In c s.
Proof.
  induction s as [|x s IH]; simpl; [tauto|].
  destruct (isspace x); [|tauto].
  intros H. right. exact (IH H).
Qed.

Lemma rstrip_In (c : N) (s : list N) : In c (rstrip s) -> In c s.
Proof.
  induction s as [|x s IH]; simpl; [tauto|].
  destruct (rstrip s) as [|y t].
  - destruct (isspace x); simpl; tauto.
  - intros [H|H]; [left; exact H | right; exact (IH H)].
Qed.

Lemma strip_In (c : N) (s : list N) : In c (strip s) -> In c s.
Proof. intros H. apply lstrip_In, rstrip_In, H. Qed.

Lemma lstrip_app (p t : list N) :
  lstrip p <> [] -> lstrip (p ++ t) = lstrip p ++ t.
Proof.
  induction p as [|c p IH]; simpl; [congruence|].
  destruct (isspace c); [exact IH | reflexivity].
Qed.

Lemma rstrip_app_length (u t : list N) :
  length (rstrip u) <= length (rstrip (u ++ t)).
Proof.
  induction u as [|c u IH]; [simpl; lia|].
  change ((c :: u) ++ t) with (c :: (u ++ t)). simpl.
  destruct (rstrip u) as [|x r]; destruct (rstrip (u ++ t)) as [|y r'];
    destruct (isspace c); simpl in *; lia.
Qed.

(** A prefix of a fragment strips to something no longer. *)
Lemma strip_app_length (p t : list N) :
  length (strip p) <= length (strip (p ++ t)).
Proof.
  unfold strip. destruct (lstrip p) as [|c u] eqn:E; [simpl; lia|].
  rewrite lstrip_app, E by (rewrite E; discriminate).
  apply rstrip_app_length.
Qed.
End StripFacts.

(** * The result condenser *)

Lemma filter_nil_iff {A : Type} (p : A -> bool) (l : list A) :
  List.filter p l = [] <-> Forall (fun x => p x = false) l.
Proof.
  induction l as [|a l IH]; simpl.
  - split; [constructor | reflexivity].
  - destruct (p a) eqn:E; split; intros H.
    + discriminate.
    + inversion H; subst. congruence.
    + constructor; [exact E | apply IH, H].
    + inversion H; subst. apply IH. assumption.
Qed.

Lemma sentences_of_nil_iff (x : list N) :
  sentences_of x = [] <->
  Forall (fun f => length (strip f) <= 20) (split dot x).
Proof.
  unfold sentences_of. split.
  - intros H. apply map_eq_nil in H. apply filter_nil_iff in H.
    eapply List.Forall_impl; [|exact H]. unfold len. intros f Hf. simpl in Hf.
    apply Z.ltb_ge in Hf. lia.
  - intros H. erewrite (proj2 (filter_nil_iff _ _)); [reflexivity|].
    eapply List.Forall_impl; [|exact H]. unfold len. intros f Hf. simpl.
    apply Z.ltb_ge. lia.
Qed.

(** A text without a sentence has none after a cut either. *)
Lemma sentences_of_firstn_nil (n : nat) (x : list N) :
  sentences_of x = [] -> sentences_of (firstn n x) = [].
Proof.
  rewrite !sentences_of_nil_iff. intros H.
  destruct (split_firstn dot n x) as (init & f & t & tail & E1 & E2).
  rewrite E1. rewrite E2 in H.
  apply Forall_app in H. destruct H as [Hinit Hrest].
  apply Forall_app. split; [exact Hinit|].
  inversion Hrest as [|? ? Hf _]; subst.
  constructor; [|constructor].
  pose proof (strip_app_length f t). lia.
Qed.

Lemma sentences_of_are_sentences (x : list N) :
  Forall is_sentence (sentences_of x).
Proof.
  unfold sentences_of.
  pose proof (split_no_sep dot x) as Hsep.
  induction (split dot x) as [|f fs IH]; simpl; [constructor|].
  inversion Hsep as [|? ? Hf Hfs]; subst.
  destruct (20 <? len (strip f))%Z eqn:E; [|exact (IH Hfs)].
  simpl. constructor; [|exact (IH Hfs)].
  repeat split.
  - intros H. apply Hf. exact (strip_In _ _ H).
  - apply strip_idem.
  - apply Z.ltb_lt in E. unfold len in E. lia.
Qed.

Lemma is_sentence_kept (s : list N) :
  is_sentence s -> (20 <? len (strip s))%Z = true.
Proof.
  intros (_ & -> & H). apply Z.ltb_lt. unfold len. lia.
Qed.

(** The fragments of a condensed text: the kept sentences, all but the
    first after a blank, and the empty fragment after the last terminator. *)
Lemma split_join (s : list N) (ks : list (list N)) :
  Forall is_sentence (s :: ks) ->
  split dot (join (py ". ") (s :: ks) ++ py ".")
  = s :: List.map (cons blank) ks ++ [[]].
Proof.
  revert s. induction ks as [|s2 ks IH]; intros s Hs.
  - inversion Hs as [|? ? (Hdot & _) _]; subst.
    change (join (py ". ") [s] ++ py ".") with (s ++ dot :: []).
    rewrite split_app_sep by exact Hdot. reflexivity.
  - inversion Hs as [|? ? (Hdot & _) Hks]; subst.
    change (join (py ". ") (s :: s2 :: ks))
      with (s ++ [dot; blank] ++ join (py ". ") (s2 :: ks)).
    rewrite <- app_assoc.
    change (s ++ ([dot; blank] ++ join (py ". ") (s2 :: ks)) ++ py ".")
      with (s ++ dot :: blank :: (join (py ". ") (s2 :: ks) ++ py ".")).
    rewrite split_app_sep by exact Hdot.
    assert (Hb : blank <> dot) by discriminate.
    destruct (split_cons_other dot blank
                (join (py ". ") (s2 :: ks) ++ py ".") Hb) as (f & fs & E1 & ->).
    rewrite (IH s2 Hks) in E1. injection E1 as <- <-. reflexivity.
Qed.

Lemma sentences_of_blank_tail (ks : list (list N)) :
  Forall is_sentence ks ->
  List.map strip
    (List.filter (fun s => (20 <? len (strip s))%Z)
       (List.map (cons blank) ks ++ [[]])) = ks.
Proof.
  induction ks as [|s ks IH]; intros Hs; [reflexivity|].
  inversion Hs as [|? ? Hsent Hks]; subst.
  simpl. rewrite (strip_cons_space blank s) by reflexivity.
  rewrite (is_sentence_kept s Hsent). simpl.
  rewrite (strip_cons_space blank s) by reflexivity.
  destruct Hsent as (_ & -> & _). f_equal. exact (IH Hks).
Qed.

(** Condensing a condensed text finds the kept sentences again. *)
Lemma sentences_of_join (ks : list (list N)) :
  Forall is_sentence ks -> ks <> [] ->
  sentences_of (join (py ". ") ks ++ py ".") = ks.
Proof.
  intros Hs Hne. destruct ks as [|s ks]; [congruence|].
  unfold sentences_of. rewrite (split_join s ks Hs).
  inversion Hs as [|? ? Hsent Hks]; subst.
  simpl. rewrite (is_sentence_kept s Hsent). simpl.
  destruct Hsent as (_ & -> & _). f_equal.
  exact (sentences_of_blank_tail ks Hks).
Qed.

Lemma slice_to_500 (x : list N) : slice_to x 500 = firstn 500 x.
Proof. reflexivity. Qed.

Lemma extract_key_info_idempotent (x : list N) :
  extract_key_info (extract_key_info x) = extract_key_info x.
Proof.
  unfold extract_key_info at 2 3.
  destruct (firstn 5 (sentences_of x)) as [|s ks] eqn:E.
  - assert (Hnil : sentences_of x = []).
    { destruct (sentences_of x); [reflexivity | discriminate]. }
    rewrite slice_to_500. unfold extract_key_info.
    rewrite (sentences_of_firstn_nil 500 x Hnil). simpl.
    rewrite slice_to_500. rewrite firstn_firstn. reflexivity.
  - assert (Hs : Forall is_sentence (s :: ks)).
    { rewrite <- E. apply Forall_take, sentences_of_are_sentences. }
    unfold extract_key_info.
    rewrite (sentences_of_join (s :: ks) Hs) by discriminate.
    assert (F : firstn 5 (s :: ks) = s :: ks).
    { rewrite <- E. apply take_idemp. }
    rewrite F. reflexivity.
Qed.

(** C6. The condenser is idempotent on a text with at most five qualifying
    sentences: condensing the condensed text changes nothing.  (The bound
    is not used: [extract_key_info_idempotent] holds for every text.) *)
Theorem extract_key_info_idempotent_bounded (x : list N) :
  length (sentences_of x) <= 5 ->
  extract_key_info (extract_key_info x) = extract_key_info x.
Proof. intros _. apply extract_key_info_idempotent. Qed.

Lemma extract_key_info_idempotent_bounded_witness :
  length (sentences_of france_search_result) <= 5 /\
  extract_key_info (extract_key_info france_search_result)
  = extract_key_info france_search_result.
Proof.
  split.
  - vm_compute. lia.
  - apply extract_key_info_idempotent_bounded. vm_compute. lia.
Defined.

Lemma filter_map_comm {A B : Type} (f : A -> B) (p : B -> bool) (l : list A) :
  List.filter p (List.map f l) = List.map f (List.filter (fun x => p (f x)) l).
Proof.
  induction l as [|a l IH]; [reflexivity|].
  cbn [List.map List.filter]. destruct (p (f a)); cbn [List.map]; congruence.
Qed.

Lemma qualifying_fragments_sentences (text : list N) :
  qualifying_fragments text = sentences_of text.
Proof.
  unfold qualifying_fragments, sentences_of.
  rewrite filter_map_comm. f_equal. apply List.filter_ext. intros f.
  unfold len.
  destruct (Nat.leb_spec 21 (length (strip f)));
    destruct (Z.ltb_spec 20 (Z.of_nat (length (strip f)))); lia || reflexivity.
Qed.

Lemma ends_with_dot_snoc (s : list N) : ends_with_dot (s ++ [dot]).
Proof. unfold ends_with_dot. apply last_snoc. Qed.

(** C5, as amended.  [extract_key_info] splits the text on the terminator,
    trims every fragment, keeps the trimmed fragments of more than 20
    characters (at least 21), at most the first five of them, and joins
    them with a terminator and a blank, closing with a terminator, so that
    the result ends with the terminator; when no fragment qualifies the
    result is the first 500 characters of the text.  It is a total
    function into strings. *)
Theorem extract_key_info_condense (text : list N) :
  extract_key_info text = condense text /\
  length (firstn 5 (qualifying_fragments text)) <= 5 /\
  Forall (fun f => 21 <= length f) (qualifying_fragments text) /\
  match qualifying_fragments text with
  | [] => extract_key_info text = firstn 500 text
  | _ :: _ => ends_with_dot (extract_key_info text)
  end.
Proof.
  assert (E : extract_key_info text = condense text).
  { unfold extract_key_info, condense.
    rewrite qualifying_fragments_sentences.
    destruct (firstn 5 (sentences_of text)); reflexivity. }
  split; [exact E|]. split; [|split].
  - rewrite length_take. lia.
  - unfold qualifying_fragments. apply List.Forall_forall. intros f Hf.
    apply List.filter_In in Hf. destruct Hf as [_ Hf].
    apply Nat.leb_le in Hf. exact Hf.
  - rewrite E. unfold condense.
    destruct (qualifying_fragments text) as [|f fs]; [reflexivity|].
    change (firstn 5 (f :: fs)) with (f :: firstn 4 fs).
    apply ends_with_dot_snoc.
Qed.

(** C5, as stated, fails: the fragment ["The sky is very blue"] has exactly
    20 characters, and the condenser does not keep it; it falls back to
    the raw text, which does not end with the terminator. *)
Lemma fragments_of_20_do_not_qualify :
  ~ fragments_of_20_qualify (py "The sky is very blue. x").
Proof.
  intros H. vm_compute in H. discriminate H.
Qed.

Example extract_key_info_drops_20 :
  extract_key_info (py "The sky is very blue. The grass is very green today.")
  = py "The grass is very green today.".
Proof. vm_compute. reflexivity. Qed.

Example extract_key_info_keeps_21 :
  extract_key_info (py "The sky is very blue!. x") = py "The sky is very blue!.".
Proof. vm_compute. reflexivity. Qed.

(** * The prompt *)

Lemma occurs_in_refl (s : list N) : occurs_in s s.
Proof. exists [], []. rewrite app_nil_r. reflexivity. Qed.

Lemma occurs_in_trans (a b c : list N) :
  occurs_in a b -> occurs_in b c -> occurs_in a c.
Proof.
  intros (p1 & q1 & ->) (p2 & q2 & ->).
  exists (p2 ++ p1), (q1 ++ q2). rewrite <- !app_assoc. reflexivity.
Qed.

Lemma occurs_in_second (a b c : list N) : occurs_in b (a ++ b ++ c).
Proof. exists a, c. reflexivity. Qed.

Lemma occurs_in_fourth (a b c d e : list N) :
  occurs_in d (a ++ b ++ c ++ d ++ e).
Proof.
  exists (a ++ b ++ c), e.
  rewrite <- (app_assoc a (b ++ c) (d ++ e)).
  rewrite <- (app_assoc b c (d ++ e)). reflexivity.
Qed.

Lemma system_prompt_embeds_result (r q : list N) :
  occurs_in r (system_prompt r q).
Proof. unfold system_prompt. apply occurs_in_second. Qed.

Lemma system_prompt_embeds_question (r q : list N) :
  occurs_in q (system_prompt r q).
Proof. unfold system_prompt. apply occurs_in_fourth. Qed.

(** * The turn processor *)

Lemma last_nonempty {A : Type} (l : list A) :
  l <> [] -> exists x, last l = Some x.
Proof.
  intros H. destruct (last l) as [x|] eqn:E; [exists x; reflexivity|].
  apply last_None in E. contradiction.
Qed.

Section TurnFacts.
Context {World : Type}.
Variable search_tool : list N -> World -> result (list N) * World.
Variable language_model : list N -> World -> result response * World.


(** One turn on a conversation that is not empty: one search with the
    user's question, one call of the model with the prompt, and the reply
    appended to the conversation. *)
Lemma run_chatbot (state : State) (last_message : message) (w w1 w2 : World)
    (r : result (list N)) (r' : result response) :
  last (messages state) = Some last_message ->
  search_tool (user_question_of last_message) w = (r, w1) ->
  language_model
    (system_prompt (condensed_of r) (user_question_of last_message)) w1
  = (r', w2) ->
  run search_tool language_model (chatbot state) w
  = (Ok {| messages := messages state ++ [Message AIMessage (reply_of r')] |},
     w2,
     [ SearchCall (user_question_of last_message) r;
       LlmCall (system_prompt (condensed_of r) (user_question_of last_message)) r' ]).
Proof.
  intros Hlast Hs Hl. unfold chatbot.
  destruct (messages state) as [|m0 ms] eqn:Hm; [discriminate Hlast|].
  rewrite Hlast. cbn [bind try_except search_invoke run].
  rewrite Hs. destruct r as [raw|e]; cbn [of_result bind try_except condensed_of] in *;
    cbn [llm_invoke bind try_except run]; rewrite Hl;
    destruct r' as [resp|e']; reflexivity.
Qed.

(** The same, with the answers of the environment left implicit. *)
Lemma run_chatbot_ex (state : State) (w : World) :
  messages state <> [] ->
  exists last_message r r' w2,
    last (messages state) = Some last_message /\
    run search_tool language_model (chatbot state) w
    = (Ok {| messages := messages state ++ [Message AIMessage (reply_of r')] |},
       w2,
       [ SearchCall (user_question_of last_message) r;
         LlmCall (system_prompt (condensed_of r) (user_question_of last_message)) r' ]).
Proof.
  intros Hne. destruct (last_nonempty _ Hne) as (m & Hm).
  destruct (search_tool (user_question_of m) w) as [r w1] eqn:Hs.
  destruct (language_model (system_prompt (condensed_of r) (user_question_of m)) w1)
    as [r' w2] eqn:Hl.
  exists m, r, r', w2. split; [exact Hm|].
  exact (run_chatbot state m w w1 w2 r r' Hm Hs Hl).
Qed.

Lemma run_chatbot_empty (w : World) :
  run search_tool language_model (chatbot {| messages := [] |}) w
  = (Ok {| messages := [Message AIMessage greeting] |}, w, []).
Proof. reflexivity. Qed.

End TurnFacts.

(** ** Facts about the scenario *)

Lemma france_extract :
  extract_key_info france_search_result = france_search_result.
Proof. vm_compute. reflexivity. Qed.

Lemma france_sentences_of :
  sentences_of france_search_result = france_sentences.
Proof. vm_compute. reflexivity. Qed.

Lemma france_sentences_long :
  Forall (fun s => 20 <= length s) france_sentences.
Proof.
  unfold france_sentences.
  constructor; [vm_compute; lia|].
  constructor; [vm_compute; lia|].
  constructor; [vm_compute; lia|].
  constructor.
Qed.

Lemma france_sentences_occur :
  Forall (fun s => occurs_in s france_search_result) france_sentences.
Proof.
  unfold france_sentences.
  constructor.
  { exists [], (py ". It has a population of over 2 million. The Eiffel Tower is located there.").
    vm_compute. reflexivity. }
  constructor.
  { exists (py "Paris is the capital of France. "), (py ". The Eiffel Tower is located there.").
    vm_compute. reflexivity. }
  constructor.
  { exists (py "Paris is the capital of France. It has a population of over 2 million. "), (py ".").
    vm_compute. reflexivity. }
  constructor.
Qed.

Lemma france_sentences_count : length france_sentences <= 5.
Proof. unfold france_sentences. cbn [length]. lia. Qed.

Lemma condensed_of_ok (raw : list N) :
  condensed_of (Ok raw) = extract_key_info raw.
Proof. reflexivity. Qed.

Lemma user_question_of_message (cls : message_class) (content : list N) :
  user_question_of (Message cls content) = content.
Proof. reflexivity. Qed.

Section TurnClaims.
Context {World : Type}.
Variable search_tool : list N -> World -> result (list N) * World.
Variable language_model : list N -> World -> result response * World.


(** C1. On every conversation that is not empty, and whatever the two
    collaborators answer or raise, the turn processor returns the
    conversation with exactly one message appended, an [AIMessage] object:
    the result is one message longer and its last message is that
    [AIMessage], whose role is assistant. *)
Theorem chatbot_appends_one_assistant_message (state : State) (w : World) :
  messages state <> [] ->
  exists state' content,
    outcome search_tool language_model (chatbot state) w = Ok state' /\
    messages state' = messages state ++ [Message AIMessage content] /\
    length (messages state') = length (messages state) + 1 /\
    last (messages state') = Some (Message AIMessage content) /\
    role_of (Message AIMessage content) = assistant.
Proof.
  intros Hne.
  destruct (run_chatbot_ex search_tool language_model state w Hne)
    as (m & r & r' & w2 & _ & Hrun).
  exists {| messages := messages state ++ [Message AIMessage (reply_of r')] |},
    (reply_of r').
  unfold outcome. rewrite Hrun. cbn [fst messages].
  repeat split.
  - rewrite length_app. reflexivity.
  - apply last_snoc.
Qed.

(** C2. If the search call of a turn on a non-empty conversation raises,
    the condensed result is the literal ["Search temporarily unavailable."],
    the prompt given to the model is built from it and contains it, the
    turn makes no other call, and it returns the conversation with one
    assistant message appended: no exception leaves the turn processor. *)
Theorem chatbot_search_failure (state : State) (w : World)
    (query : list N) (e : exn) :
  messages state <> [] ->
  In (SearchCall query (Raised e)) (calls_of search_tool language_model (chatbot state) w) ->
  exists answer,
    calls_of search_tool language_model (chatbot state) w
    = [ SearchCall query (Raised e);
        LlmCall (system_prompt (py "Search temporarily unavailable.") query)
          answer ] /\
    occurs_in (py "Search temporarily unavailable.")
      (system_prompt (py "Search temporarily unavailable.") query) /\
    outcome search_tool language_model (chatbot state) w
    = Ok {| messages :=
              messages state ++ [Message AIMessage (reply_of answer)] |} /\
    role_of (Message AIMessage (reply_of answer)) = assistant.
Proof.
  intros Hne Hin.
  destruct (run_chatbot_ex search_tool language_model state w Hne)
    as (m & r & r' & w2 & _ & Hrun).
  unfold calls_of, outcome in *. rewrite Hrun in *.
  cbn [fst snd] in *.
  destruct Hin as [Hin|[Hin|[]]]; [|discriminate Hin].
  injection Hin as Hq Hr. subst r. rewrite Hq.
  exists r'. cbn [condensed_of]. repeat split.
  apply system_prompt_embeds_result.
Qed.

(** C3. If the model call of a turn on a non-empty conversation raises, the
    appended assistant message carries the literal fallback text that asks
    the user to rephrase, and the turn returns normally. *)
Theorem chatbot_model_failure (state : State) (w : World)
    (prompt : list N) (e : exn) :
  messages state <> [] ->
  In (LlmCall prompt (Raised e)) (calls_of search_tool language_model (chatbot state) w) ->
  outcome search_tool language_model (chatbot state) w
  = Ok {| messages :=
            messages state ++
            [Message AIMessage
               (py "I encountered an error generating the response. Please try rephrasing your question.")] |}.
Proof.
  intros Hne Hin.
  destruct (run_chatbot_ex search_tool language_model state w Hne)
    as (m & r & r' & w2 & _ & Hrun).
  unfold calls_of, outcome in *. rewrite Hrun in *.
  cbn [fst snd] in *.
  destruct Hin as [Hin|[Hin|[]]]; [discriminate Hin|].
  injection Hin as _ Hr. subst r'. reflexivity.
Qed.

(** C4. On the empty conversation the turn processor returns exactly one
    message, an assistant message with the static greeting, and calls
    neither the search tool nor the model: the turn is a plain return, no
    call is recorded and the world is unchanged. *)
Theorem chatbot_greets_on_empty (w : World) :
  chatbot {| messages := [] |}
  = Return {| messages :=
                [Message AIMessage
                   (py "Hi! Ask me anything and I'll search for the latest information.")] |}
  /\ run search_tool language_model (chatbot {| messages := [] |}) w
     = (Ok {| messages := [Message AIMessage greeting] |}, w, [])
  /\ calls_of search_tool language_model (chatbot {| messages := [] |}) w = []
  /\ role_of (Message AIMessage greeting) = assistant.
Proof. repeat split. Qed.

(** C7. In the scenario where the user asks ["What is the capital of
    France?"] and the search returns the three sentences about Paris, the
    condenser keeps the three sentences (each of at least 20 characters, at
    most five of them) and gives the text back unchanged, and the prompt the
    model receives contains the three sentences and the question. *)
Theorem chatbot_france_scenario (earlier : list message) (w w1 : World) :
  search_tool france_question w = (Ok france_search_result, w1) ->
  sentences_of france_search_result = france_sentences /\
  Forall (fun s => 20 <= length s) france_sentences /\
  length france_sentences <= 5 /\
  extract_key_info france_search_result = france_search_result /\
  exists prompt answer,
    calls_of search_tool language_model
      (chatbot {| messages := earlier ++ [Message HumanMessage france_question] |}) w
    = [ SearchCall france_question (Ok france_search_result);
        LlmCall prompt answer ] /\
    prompt = system_prompt france_search_result france_question /\
    Forall (fun s => occurs_in s prompt) france_sentences /\
    occurs_in france_search_result prompt /\
    occurs_in france_question prompt.
Proof.
  intros Hs.
  split; [exact france_sentences_of|].
  split; [exact france_sentences_long|].
  split; [exact france_sentences_count|].
  split; [exact france_extract|].
  destruct (language_model
              (system_prompt france_search_result france_question) w1)
    as [r' w2] eqn:Hl.
  pose proof (run_chatbot search_tool language_model
                {| messages := earlier ++ [Message HumanMessage france_question] |}
                (Message HumanMessage france_question) w w1 w2
                (Ok france_search_result) r') as Hrun.
  rewrite condensed_of_ok, user_question_of_message, france_extract in Hrun.
  specialize (Hrun (last_snoc _ _) Hs Hl).
  exists (system_prompt france_search_result france_question), r'.
  unfold calls_of. rewrite Hrun.
  split; [reflexivity|]. split; [reflexivity|].
  split; [|split].
  - eapply List.Forall_impl; [|exact france_sentences_occur].
    intros s Hocc. eapply occurs_in_trans; [exact Hocc|].
    apply system_prompt_embeds_result.
  - apply system_prompt_embeds_result.
  - apply system_prompt_embeds_question.
Qed.

(** C10. The turn processor leaves the messages of the conversation as they
    are: on every conversation, empty or not, the result is the conversation
    followed by one assistant message, so its first [len(C)] messages are
    those of [C], in order. *)
Theorem chatbot_keeps_conversation (state : State) (w : World) :
  exists state' reply,
    outcome search_tool language_model (chatbot state) w = Ok state' /\
    messages state' = messages state ++ [reply] /\
    role_of reply = assistant /\
    firstn (length (messages state)) (messages state') = messages state /\
    forall i msg, nth_error (messages state) i = Some msg ->
                  nth_error (messages state') i = Some msg.
Proof.
  assert (Hframe : forall (l : list message) reply,
             firstn (length l) (l ++ [reply]) = l /\
             forall i msg, nth_error l i = Some msg ->
                           nth_error (l ++ [reply]) i = Some msg).
  { intros l reply. split.
    - rewrite firstn_app, Nat.sub_diag, firstn_all. apply app_nil_r.
    - intros i msg H. rewrite nth_error_app1; [exact H|].
      apply nth_error_Some. congruence. }
  destruct (messages state) as [|m0 ms] eqn:Hm.
  - exists {| messages := [Message AIMessage greeting] |}, (Message AIMessage greeting).
    destruct state as [msgs]. cbn [messages] in Hm. subst msgs.
    repeat split. intros i msg H. destruct i; discriminate H.
  - assert (Hne : messages state <> []) by (rewrite Hm; discriminate).
    destruct (run_chatbot_ex search_tool language_model state w Hne)
      as (m & r & r' & w2 & _ & Hrun).
    exists {| messages := messages state ++ [Message AIMessage (reply_of r')] |},
      (Message AIMessage (reply_of r')).
    unfold outcome. rewrite Hrun. cbn [fst messages]. rewrite Hm.
    destruct (Hframe (m0 :: ms) (Message AIMessage (reply_of r'))) as [H1 H2].
    repeat split; assumption.
Qed.

End TurnClaims.

(** ** The claims at concrete environments *)

Lemma chatbot_appends_one_assistant_message_witness :
  messages france_state <> [] /\
  exists state' content,
    outcome search_down model_down (chatbot france_state) 0 = Ok state' /\
    messages state' = messages france_state ++ [Message AIMessage content] /\
    length (messages state') = length (messages france_state) + 1 /\
    last (messages state') = Some (Message AIMessage content) /\
    role_of (Message AIMessage content) = assistant.
Proof.
  split; [discriminate|].
  apply (chatbot_appends_one_assistant_message search_down model_down
           france_state 0).
  discriminate.
Defined.

Lemma chatbot_search_failure_witness :
  exists answer,
    calls_of search_down model_paris (chatbot france_state) 0
    = [ SearchCall france_question
          (Raised (Exception (py "connection timed out")));
        LlmCall (system_prompt (py "Search temporarily unavailable.")
                   france_question) answer ] /\
    occurs_in (py "Search temporarily unavailable.")
      (system_prompt (py "Search temporarily unavailable.") france_question) /\
    outcome search_down model_paris (chatbot france_state) 0
    = Ok {| messages :=
              messages france_state ++ [Message AIMessage (reply_of answer)] |} /\
    role_of (Message AIMessage (reply_of answer)) = assistant.
Proof.
  apply (chatbot_search_failure search_down model_paris france_state 0
           france_question (Exception (py "connection timed out"))).
  - discriminate.
  - left. reflexivity.
Defined.

Lemma chatbot_model_failure_witness :
  outcome search_france model_down (chatbot france_state) 0
  = Ok {| messages :=
            messages france_state ++
            [Message AIMessage
               (py "I encountered an error generating the response. Please try rephrasing your question.")] |}.
Proof.
  apply (chatbot_model_failure search_france model_down france_state 0
           (system_prompt france_search_result france_question)
           (Exception (py "model not found"))).
  - discriminate.
  - right. left. vm_compute. reflexivity.
Defined.

Lemma chatbot_france_scenario_witness :
  search_france france_question 0 = (Ok france_search_result, 1) /\
  exists prompt answer,
    calls_of search_france model_paris
      (chatbot {| messages := [] ++ [Message HumanMessage france_question] |}) 0
    = [ SearchCall france_question (Ok france_search_result);
        LlmCall prompt answer ] /\
    prompt = system_prompt france_search_result france_question /\
    Forall (fun s => occurs_in s prompt) france_sentences /\
    occurs_in france_search_result prompt /\
    occurs_in france_question prompt.
Proof.
  split; [reflexivity|].
  apply (chatbot_france_scenario search_france model_paris [] 0 1).
  reflexivity.
Defined.

Example chatbot_dict_message :
  user_question_of (DictMessage (<[py "content" := py "hello"]> ∅)) = py "hello"
  /\ user_question_of (DictMessage (<[py "role" := py "user"]> ∅)) = py "".
Proof. split; vm_compute; reflexivity. Qed.

(** * The extraction of the question *)

Lemma question_step_received_of (msg : message) :
  question_step (received_of msg) = Ok (Text (user_question_of msg)).
Proof.
  destruct msg as [cls content|fields|text]; [reflexivity| |reflexivity].
  unfold question_step, received_of, extracted_question, user_question_of.
  rewrite lookup_fmap. destruct (fields !! py "content"); reflexivity.
Qed.

Lemma received_of_textual (msg : message) : textual (received_of msg).
Proof.
  destruct msg as [cls content|fields|text]; [exact I| |exact I].
  unfold textual, received_of. rewrite lookup_fmap.
  destruct (fields !! py "content"); exact I.
Qed.

(** With text contents the turn goes on to the search with the question. *)
Lemma chatbot_searches_question (earlier : list message) (last_message : message) :
  exists k,
    chatbot {| messages := earlier ++ [last_message] |}
    = SearchInvoke (user_question_of last_message) k.
Proof.
  unfold chatbot. cbn [messages]. rewrite last_snoc.
  destruct (earlier ++ [last_message]) eqn:E.
  - destruct earlier; discriminate E.
  - eexists. reflexivity.
Qed.




Example question_step_none_content :
  question_step (Mapping (<[py "content" := none_value]> ∅))
  = Raised (Exception (py "TypeError: object is not subscriptable")).
Proof. vm_compute. reflexivity. Qed.

Example question_step_missing_content :
  question_step (Mapping (<[py "role" := Text (py "user")]> ∅))
  = Ok (Text (py "")).
Proof. vm_compute. reflexivity. Qed.

(** * The character-budget cut *)

Local Open Scope Z_scope.

(** [rfind] finds the last occurrence. *)
Lemma rfind_spec (c : N) (s : list N) :
  (rfind c s = -1 /\ ~ In c s) \/
  (exists pre post,
      s = pre ++ c :: post /\ ~ In c post /\ rfind c s = len pre).
Proof.
  induction s as [|x s IH].
  - left. split; [reflexivity | intros []].
  - cbn [rfind]. destruct IH as [[Hr Hno] | (pre & post & -> & Hpost & Hr)].
    + rewrite Hr. cbn. destruct (N.eqb_spec x c) as [->|Hx].
      * right. exists [], s. repeat split. exact Hno.
      * left. split; [reflexivity|]. intros [H|H]; [congruence | exact (Hno H)].
    + right. exists (x :: pre), post. repeat split; [exact Hpost|].
      rewrite Hr. unfold len. cbn [length].
      destruct (Z.leb_spec 0 (Z.of_nat (length pre))); lia.
Qed.

(** Rounding a non-negative number gives a non-negative float. *)
Lemma round_to_double_nonneg (m e : Z) :
  0 <= m -> 0 <= mant (round_to_double m e).
Proof.
  intros Hm. unfold round_to_double.
  rewrite Z.abs_eq by exact Hm.
  destruct (Z.leb_spec (Z.log2 m + 1 - 53) 0) as [_|Hex]; cbn [mant];
    [exact Hm|].
  set (ex := Z.log2 m + 1 - 53) in *.
  assert (0 < 2 ^ ex) by (apply Z.pow_pos_nonneg; lia).
  assert (0 <= m / 2 ^ ex) by (apply Z.div_pos; lia).
  assert (0 <= Z.sgn m) by (apply Z.sgn_nonneg; exact Hm).
  destruct (_ || _); nia.
Qed.

(** Converting a length to a float: the rounded value stays close to the
    integer, far below the overflow threshold. *)
Lemma round_to_double_int_bound (n : Z) :
  0 <= n < 2 ^ 63 ->
  let f := round_to_double n 0 in
  0 <= mant f /\ 0 <= expo f /\ mant f * 2 ^ expo f <= n + 2 ^ 10.
Proof.
  intros Hn f. subst f. unfold round_to_double.
  rewrite Z.abs_eq by lia.
  destruct (Z.leb_spec (Z.log2 n + 1 - 53) 0) as [Hex|Hex]; cbn [mant expo].
  - rewrite Z.mul_1_r. lia.
  - assert (Hpos : 0 < n).
    { destruct (Z.eq_dec n 0) as [Hz|Hz]; [|lia].
      rewrite Hz in Hex. cbn in Hex. lia. }
    set (ex := Z.log2 n + 1 - 53) in *.
    assert (Hlog : Z.log2 n < 63) by (apply Z.log2_lt_pow2; lia).
    assert (Hex10 : ex <= 10) by (unfold ex; lia).
    assert (Hp : 0 < 2 ^ ex) by (apply Z.pow_pos_nonneg; lia).
    assert (Hp10 : 2 ^ ex <= 2 ^ 10) by (apply Z.pow_le_mono_r; lia).
    assert (Hq : 0 <= n / 2 ^ ex) by (apply Z.div_pos; lia).
    assert (Hqm : n / 2 ^ ex * 2 ^ ex <= n).
    { rewrite Z.mul_comm. apply Z.mul_div_le. exact Hp. }
    rewrite (Z.sgn_pos n Hpos), Z.add_0_l.
    destruct (_ || _); nia.
Qed.

Lemma float_of_int_ok (n : Z) :
  0 <= n < 2 ^ 63 -> float_of_int n = Ok (round_to_double n 0).
Proof.
  intros Hn. unfold float_of_int.
  destruct (round_to_double_int_bound n Hn) as (Hm & He & Hv).
  rewrite Z.abs_eq by exact Hm.
  destruct (Z.leb_spec (2 ^ 1024) (mant (round_to_double n 0) * 2 ^ expo (round_to_double n 0)))
    as [H|H]; [|reflexivity].
  exfalso.
  assert (2 ^ 63 + 2 ^ 10 < 2 ^ 1024) by (apply Z.ltb_lt; vm_compute; reflexivity).
  lia.
Qed.


(** Without a terminator ([rfind] gives [-1]) the test fails. *)
Lemma past_70_percent_negative (last_period max_chars : Z) :
  0 <= max_chars < 2 ^ 63 -> last_period < 0 ->
  past_70_percent last_period max_chars = Ok false.
Proof.
  intros H Hp. unfold past_70_percent. rewrite (float_of_int_ok _ H).
  f_equal. unfold int_gt_float, float_mul.
  destruct (round_to_double_int_bound max_chars H) as (Hm & _ & _).
  set (f := round_to_double _ _).
  assert (Hf : 0 <= mant f).
  { apply round_to_double_nonneg. cbn [mant float_0_7]. lia. }
  destruct (Z.leb_spec 0 (expo f)) as [He|He].
  - apply Z.ltb_ge.
    assert (0 < 2 ^ expo f) by (apply Z.pow_pos_nonneg; lia). nia.
  - apply Z.ltb_ge.
    assert (0 < 2 ^ (- expo f)) by (apply Z.pow_pos_nonneg; lia). nia.
Qed.

Lemma slice_to_nonneg (s : list N) (stop : Z) :
  0 <= stop -> slice_to s stop = firstn (Z.to_nat stop) s.
Proof.
  intros H. unfold slice_to.
  destruct (Z.leb_spec 0 stop); [reflexivity | lia].
Qed.

Lemma firstn_through (pre post : list N) (c : N) :
  slice_to (pre ++ c :: post) (len pre + 1) = pre ++ [c].
Proof.
  unfold len. rewrite slice_to_nonneg by lia.
  replace (Z.to_nat (Z.of_nat (length pre) + 1)) with (length pre + 1)%nat by lia.
  rewrite firstn_app.
  replace (length pre + 1 - length pre)%nat with 1%nat by lia.
  rewrite firstn_all2 by lia. reflexivity.
Qed.

(** The three outcomes on concrete texts, and the two sides of the float
    test at the 70 percent mark: [90 * 0.7] rounds below [63], [10 * 0.7]
    is [7.0]. *)
Example truncate_short :
  truncate_search_results (py "Short text.") 1500 = Ok (py "Short text.").
Proof. vm_compute. reflexivity. Qed.

Example truncate_at_sentence :
  truncate_search_results
    (py "One. Two three four. Five six seven eight nine ten") 25
  = Ok (py "One. Two three four.").
Proof. vm_compute. reflexivity. Qed.

Example truncate_hard :
  truncate_search_results
    (py "One. Two three four five six seven eight nine ten") 25
  = Ok (py "One. Two three four five ...").
Proof. vm_compute. reflexivity. Qed.

Example past_70_percent_63_of_90 : past_70_percent 63 90 = Ok true.
Proof. vm_compute. reflexivity. Qed.

Example past_70_percent_7_of_10 : past_70_percent 7 10 = Ok false.
Proof. vm_compute. reflexivity. Qed.

(** A negative budget is outside the contract: the slice then drops
    characters from the end, and the test can succeed without a
    terminator. *)
Example truncate_negative_budget :
  truncate_search_results (py "abc") (-10) = Ok (py "")
  /\ truncate_search_results (py "abc") (-1) = Ok (py "ab...").
Proof. split; vm_compute; reflexivity. Qed.

(** ** The float test against the exact 70 percent mark *)

(** Rounding moves a number by at most half a unit of the last kept bit. *)
Lemma round_to_double_error (m e : Z) :
  0 < m ->
  let ex := Z.log2 m + 1 - 53 in
  0 < ex ->
  exists q,
    round_to_double m e = {| mant := q; expo := e + ex |} /\
    2 * m - 2 ^ ex <= 2 * (q * 2 ^ ex) <= 2 * m + 2 ^ ex.
Proof.
  intros Hm ex Hex. unfold round_to_double.
  rewrite Z.abs_eq by lia. fold ex.
  destruct (Z.leb_spec ex 0) as [H|_]; [lia|].
  rewrite (Z.sgn_pos m Hm).
  set (E := 2 ^ ex). set (h := 2 ^ (ex - 1)).
  assert (HE : E = 2 * h).
  { unfold E, h. replace ex with (Z.succ (ex - 1)) at 1 by lia.
    rewrite Z.pow_succ_r by lia. reflexivity. }
  assert (Hh : 0 < h) by (apply Z.pow_pos_nonneg; lia).
  assert (Hdiv : m = E * (m / E) + m mod E) by (apply Z.div_mod; lia).
  assert (Hmod : 0 <= m mod E < E) by (apply Z.mod_pos_bound; lia).
  set (q0 := m / E) in *. set (r := m mod E) in *.
  eexists. split; [reflexivity|].
  destruct (Z.ltb_spec h r) as [Hlt|Hge]; cbn [orb].
  - nia.
  - destruct (Z.eqb_spec r h) as [Heq|Hne]; cbn [andb].
    + destruct (Z.odd q0); nia.
    + nia.
Qed.

(** For a budget below [2 ^ 49] the float test agrees with the exact
    comparison [last_period > 7/10 * max_chars] whenever the terminator
    is not exactly at the 70 percent mark. *)
Lemma past_70_percent_exact (last_period max_chars : Z) :
  0 <= max_chars < 2 ^ 49 ->
  10 * last_period <> 7 * max_chars ->
  past_70_percent last_period max_chars
  = Ok (7 * max_chars <? 10 * last_period).
Proof.
  intros Hn Hne. set (n := max_chars) in *. set (p := last_period) in *.
  assert (H49 : 2 ^ 49 = 562949953421312) by reflexivity.
  assert (H52 : 2 ^ 52 = 4503599627370496) by reflexivity.
  assert (H63 : 2 ^ 63 = 9223372036854775808) by reflexivity.
  unfold past_70_percent. rewrite float_of_int_ok by lia. f_equal.
  assert (Hconv : round_to_double n 0 = {| mant := n; expo := 0 |}).
  { unfold round_to_double. rewrite Z.abs_eq by lia.
    destruct (Z.leb_spec (Z.log2 n + 1 - 53) 0) as [_|H]; [reflexivity|].
    exfalso. destruct (Z.eq_dec n 0) as [->|Hn0]; [cbn in H; lia|].
    assert (Z.log2 n < 49) by (apply Z.log2_lt_pow2; lia). lia. }
  rewrite Hconv. unfold float_mul, float_0_7. cbn [mant expo].
  set (M := 3152519739159347).
  destruct (Z.eq_dec n 0) as [Hn0|Hn0].
  { rewrite Hn0. cbn. rewrite Hn0 in Hne.
    destruct p; reflexivity. }
  assert (HP : 0 < n * M) by (unfold M; lia).
  destruct (Z.leb_spec (Z.log2 (n * M) + 1 - 53) 0) as [Hex|Hex].
  - assert (Hr : round_to_double (n * M) (0 + -52)
                 = {| mant := n * M; expo := -52 |}).
    { unfold round_to_double. rewrite Z.abs_eq by lia.
      destruct (Z.leb_spec (Z.log2 (n * M) + 1 - 53) 0); [reflexivity | lia]. }
    rewrite Hr. unfold int_gt_float. cbn [mant expo].
    change (0 <=? -52) with false. cbv iota.
    change (- -52) with 52. rewrite H52. unfold M.
    destruct (Z.ltb_spec (n * 3152519739159347) (p * 4503599627370496));
      destruct (Z.ltb_spec (7 * n) (10 * p)); try reflexivity; lia.
  - destruct (round_to_double_error (n * M) (0 + -52) HP Hex)
      as (q & Hr & Hq).
    rewrite Hr. set (ex := Z.log2 (n * M) + 1 - 53) in *.
    assert (Hex48 : ex <= Z.log2 n).
    { assert (Z.log2 (n * M) <= Z.log2 n + Z.log2 M + 1)
        by (apply Z.log2_mul_above; unfold M; lia).
      assert (Z.log2 M = 51) by reflexivity. lia. }
    assert (Hlogn : Z.log2 n < 49) by (apply Z.log2_lt_pow2; lia).
    assert (HEn : 2 ^ ex <= n).
    { transitivity (2 ^ Z.log2 n).
      - apply Z.pow_le_mono_r; lia.
      - apply Z.log2_spec. lia. }
    assert (HE : 0 < 2 ^ ex) by (apply Z.pow_pos_nonneg; lia).
    unfold int_gt_float. cbn [mant expo].
    destruct (Z.leb_spec 0 (0 + -52 + ex)) as [H|_]; [lia|].
    replace (- (0 + -52 + ex)) with (52 - ex) by lia.
    set (K := 2 ^ (52 - ex)). set (E := 2 ^ ex) in *.
    assert (HKE : K * E = 4503599627370496).
    { unfold K, E. rewrite <- Z.pow_add_r by lia.
      replace (52 - ex + ex) with 52 by lia. exact H52. }
    assert (HK : 0 < K) by (apply Z.pow_pos_nonneg; lia).
    unfold M in Hq.
    destruct (Z.ltb_spec q (p * K)) as [Hlt|Hge];
      destruct (Z.ltb_spec (7 * n) (10 * p)) as [Hlt'|Hge'];
      try reflexivity; exfalso.
    + assert (Hmul : (q + 1) * E <= p * K * E)
        by (apply Z.mul_le_mono_nonneg_r; lia).
      replace (p * K * E) with (p * 4503599627370496) in Hmul
        by (rewrite <- HKE; ring).
      lia.
    + assert (Hmul : p * K * E <= q * E)
        by (apply Z.mul_le_mono_nonneg_r; lia).
      replace (p * K * E) with (p * 4503599627370496) in Hmul
        by (rewrite <- HKE; ring).
      lia.
Qed.

(** ** The cut against the exact 70 percent mark *)






Example truncate_at_the_mark :
  truncate_search_results text_63_of_90 90
  = Ok (List.repeat 97%N 63 ++ [dot])
  /\
  truncate_search_results text_7_of_10 10
  = Ok (List.repeat 97%N 7 ++ [dot] ++ List.repeat 98%N 2 ++ py "...").
Proof. split; vm_compute; reflexivity. Qed.

(** Above [2 ^ 49] the float test can miss the exact comparison away from
    the mark. *)
Example past_70_percent_large :
  past_70_percent 2306846660172262 3295495228817517 = Ok false
  /\ 7 * 3295495228817517 < 10 * 2306846660172262.
Proof. split; [vm_compute; reflexivity | lia]. Qed.

(** * Further properties of the condenser *)

Local Open Scope nat_scope.

(** The first fragment is a prefix of the text. *)
Lemma split_head_prefix (sep : N) (s f : list N) (fs : list (list N)) :
  split sep s = f :: fs -> exists t, s = f ++ t.
Proof.
  revert f fs. induction s as [|c s IH]; intros f fs E.
  - injection E as <- _. exists []. reflexivity.
  - destruct (N.eq_dec c sep) as [->|Hc].
    + rewrite split_cons_sep in E. injection E as <- _.
      exists (sep :: s). reflexivity.
    + destruct (split_cons_other sep c s Hc) as (g & gs & E1 & E2).
      rewrite E2 in E. injection E as <- _.
      destruct (IH g gs E1) as (t & ->). exists t. reflexivity.
Qed.

Lemma occurs_in_cons (c : N) (a s : list N) :
  occurs_in a s -> occurs_in a (c :: s).
Proof. intros (pre & post & ->). exists (c :: pre), post. reflexivity. Qed.

(** Every fragment is a contiguous piece of the text. *)
Lemma split_occurs (sep : N) (s : list N) :
  Forall (fun f => occurs_in f s) (split sep s).
Proof.
  induction s as [|c s IH].
  - constructor; [apply occurs_in_refl | constructor].
  - destruct (N.eq_dec c sep) as [->|Hc].
    + rewrite split_cons_sep. constructor.
      * exists [], (sep :: s). reflexivity.
      * eapply List.Forall_impl; [|exact IH].
        intros f. apply occurs_in_cons.
    + destruct (split_cons_other sep c s Hc) as (g & gs & E1 & E2).
      rewrite E2. rewrite E1 in IH.
      inversion IH as [|? ? _ Hgs]; subst. constructor.
      * destruct (split_head_prefix sep s g gs E1) as (t & ->).
        exists [], t. reflexivity.
      * eapply List.Forall_impl; [|exact Hgs].
        intros f. apply occurs_in_cons.
Qed.

Lemma lstrip_suffix (s : list N) : exists pre, s = pre ++ lstrip s.
Proof.
  induction s as [|c s (pre & IH)]; [exists []; reflexivity|].
  cbn [lstrip]. destruct (isspace c).
  - exists (c :: pre). cbn [app]. f_equal. exact IH.
  - exists []. reflexivity.
Qed.

Lemma rstrip_prefix (s : list N) : exists post, s = rstrip s ++ post.
Proof.
  induction s as [|c s (post & IH)]; [exists []; reflexivity|].
  cbn [rstrip]. destruct (rstrip s) as [|x t] eqn:E.
  - destruct (isspace c).
    + exists (c :: s). reflexivity.
    + exists s. reflexivity.
  - exists post. cbn [app]. f_equal. exact IH.
Qed.

Lemma strip_occurs (s : list N) : occurs_in (strip s) s.
Proof.
  unfold strip. destruct (lstrip_suffix s) as (pre & E).
  destruct (rstrip_prefix (lstrip s)) as (post & E').
  exists pre, post. rewrite <- E'. exact E.
Qed.

Lemma sentences_of_occur (text : list N) :
  Forall (fun k => occurs_in k text) (sentences_of text).
Proof.
  unfold sentences_of. apply List.Forall_forall. intros k Hk.
  apply List.in_map_iff in Hk. destruct Hk as (f & <- & Hf).
  apply List.filter_In in Hf. destruct Hf as [Hf _].
  pose proof (split_occurs dot text) as Hall.
  rewrite List.Forall_forall in Hall.
  eapply occurs_in_trans; [apply strip_occurs | apply Hall, Hf].
Qed.

Lemma occurs_in_length (a s : list N) : occurs_in a s -> length a <= length s.
Proof. intros (pre & post & ->). rewrite !length_app. lia. Qed.

Lemma strip_length (s : list N) : length (strip s) <= length s.
Proof. apply occurs_in_length, strip_occurs. Qed.

(** X1. The condenser is idempotent on every text, whatever the number of
    sentences that qualify. *)
Theorem extract_key_info_idempotent_everywhere (text : list N) :
  extract_key_info (extract_key_info text) = extract_key_info text.
Proof. apply extract_key_info_idempotent. Qed.

(** X2. The condenser only quotes its input: either no sentence qualifies
    and the result is a prefix of the text, or the result is made of at most
    five kept sentences, each of which occurs in the text as it stands
    (trimmed, without a terminator inside, more than 20 characters long). *)
Theorem extract_key_info_quotes_input (text : list N) :
  (sentences_of text = [] /\ exists rest, text = extract_key_info text ++ rest)
  \/
  (exists kept,
      kept <> [] /\ length kept <= 5 /\
      Forall (fun k => occurs_in k text /\ is_sentence k) kept /\
      extract_key_info text = join (py ". ") kept ++ py ".").
Proof.
  unfold extract_key_info.
  destruct (firstn 5 (sentences_of text)) as [|k ks] eqn:E.
  - left. assert (Hnil : sentences_of text = []).
    { destruct (sentences_of text); [reflexivity | discriminate E]. }
    split; [exact Hnil|]. rewrite slice_to_500.
    exists (skipn 500 text). symmetry. apply firstn_skipn.
  - right. exists (k :: ks). split; [discriminate|]. split.
    + rewrite <- E, length_take. lia.
    + split; [|reflexivity]. rewrite <- E. apply Forall_take.
      apply List.Forall_forall. intros s Hs. split.
      * pose proof (sentences_of_occur text) as H.
        rewrite List.Forall_forall in H. exact (H s Hs).
      * pose proof (sentences_of_are_sentences text) as H.
        rewrite List.Forall_forall in H. exact (H s Hs).
Qed.

(** X3. A text of at most 20 characters has no sentence to keep and comes
    back unchanged. *)
Theorem extract_key_info_short_text (text : list N) :
  length text <= 20 -> extract_key_info text = text.
Proof.
  intros Hlen. unfold extract_key_info.
  assert (Hnil : sentences_of text = []).
  { apply sentences_of_nil_iff. apply List.Forall_forall. intros f Hf.
    pose proof (split_occurs dot text) as H.
    rewrite List.Forall_forall in H.
    pose proof (occurs_in_length f text (H f Hf)).
    pose proof (strip_length f). lia. }
  rewrite Hnil. cbn [firstn]. rewrite slice_to_500.
  apply firstn_all2. lia.
Qed.

Lemma extract_key_info_short_text_witness :
  length (py "Paris, France.") <= 20 /\
  extract_key_info (py "Paris, France.") = py "Paris, France.".
Proof.
  assert (H : length (py "Paris, France.") <= 20) by (vm_compute; lia).
  split; [exact H|]. exact (extract_key_info_short_text _ H).
Defined.

Lemma list_sum_cons (a : nat) (l : list nat) :
  list_sum (a :: l) = a + list_sum l.
Proof. reflexivity. Qed.

(** The characters of a text: those of its fragments and one separator
    between two fragments. *)
Lemma split_weight (sep : N) (s : list N) :
  list_sum (List.map (fun f => S (length f)) (split sep s)) = S (length s).
Proof.
  induction s as [|c s IH]; [reflexivity|].
  destruct (N.eq_dec c sep) as [->|Hc].
  - rewrite split_cons_sep, List.map_cons, list_sum_cons, IH.
    cbn [length]. lia.
  - destruct (split_cons_other sep c s Hc) as (g & gs & E1 & E2).
    rewrite E2. rewrite E1 in IH.
    rewrite List.map_cons, list_sum_cons in *. cbn [length] in *. lia.
Qed.

Lemma sentences_weight (frags : list (list N)) (p : list N -> bool) :
  list_sum (List.map (fun f => S (length f))
              (List.map strip (List.filter p frags)))
  <= list_sum (List.map (fun f => S (length f)) frags).
Proof.
  induction frags as [|f fs IH]; [reflexivity|].
  cbn [List.filter]. destruct (p f);
    rewrite ?List.map_cons, ?list_sum_cons.
  - pose proof (strip_length f). lia.
  - lia.
Qed.

Lemma firstn_weight (n : nat) (l : list (list N)) :
  list_sum (List.map (fun f => S (length f)) (firstn n l))
  <= list_sum (List.map (fun f => S (length f)) l).
Proof.
  revert n. induction l as [|f fs IH]; intros [|n]; cbn [firstn];
    rewrite ?List.map_cons, ?list_sum_cons; cbn [List.map list_sum fold_right];
    try lia.
  specialize (IH n). lia.
Qed.

Lemma join_length (sep k : list N) (ks : list (list N)) :
  length (join sep (k :: ks)) + length sep
  = list_sum (List.map (fun f => length f + length sep) (k :: ks)).
Proof.
  revert k. induction ks as [|k2 ks IH]; intros k.
  - cbn [join List.map list_sum fold_right]. lia.
  - change (join sep (k :: k2 :: ks)) with (k ++ sep ++ join sep (k2 :: ks)).
    rewrite !length_app. specialize (IH k2).
    rewrite (List.map_cons _ k), list_sum_cons. lia.
Qed.

Lemma list_sum_shift (d : nat) (l : list (list N)) :
  list_sum (List.map (fun f => length f + d) l) + length l
  = list_sum (List.map (fun f => S (length f)) l) + d * length l.
Proof.
  induction l as [|f fs IH].
  - cbn [List.map list_sum fold_right length]. lia.
  - rewrite !List.map_cons, !list_sum_cons. cbn [length]. lia.
Qed.

Lemma condensed_length (text : list N) :
  length (extract_key_info text) <= length text + 5.
Proof.
  unfold extract_key_info.
  destruct (firstn 5 (sentences_of text)) as [|k ks] eqn:E.
  - rewrite slice_to_500, length_take. lia.
  - assert (Hn : length (k :: ks) <= 5) by (rewrite <- E, length_take; lia).
    assert (Hw : list_sum (List.map (fun f => S (length f)) (k :: ks))
                 <= S (length text)).
    { rewrite <- E. etransitivity; [apply firstn_weight|].
      unfold sentences_of. etransitivity; [apply sentences_weight|].
      rewrite split_weight. lia. }
    pose proof (join_length (py ". ") k ks) as Hj.
    pose proof (list_sum_shift (length (py ". ")) (k :: ks)) as Hs.
    rewrite length_app.
    change (length (py ". ")) with 2 in *. change (length (py ".")) with 1.
    lia.
Qed.

(** X4. The condensed text is never more than five characters longer than
    the text it condenses. *)
Theorem extract_key_info_length (text : list N) :
  length (extract_key_info text) <= length text + 5.
Proof. apply condensed_length. Qed.

Lemma count_occ_join (k : list N) (ks : list (list N)) :
  Forall is_sentence (k :: ks) ->
  count_occ N.eq_dec (join (py ". ") (k :: ks) ++ py ".") dot
  = length (k :: ks).
Proof.
  revert k. induction ks as [|k2 ks IH]; intros k Hs;
    inversion Hs as [|? ? (Hdot & _) Hks]; subst.
  - cbn [join]. rewrite count_occ_app.
    rewrite (proj1 (count_occ_not_In N.eq_dec k dot) Hdot). reflexivity.
  - change (join (py ". ") (k :: k2 :: ks) ++ py ".")
      with ((k ++ [dot; blank] ++ join (py ". ") (k2 :: ks)) ++ py ".").
    rewrite <- !app_assoc, count_occ_app.
    rewrite (proj1 (count_occ_not_In N.eq_dec k dot) Hdot).
    change ([dot; blank] ++ join (py ". ") (k2 :: ks) ++ py ".")
      with (dot :: blank :: (join (py ". ") (k2 :: ks) ++ py ".")).
    rewrite count_occ_cons_eq by reflexivity.
    rewrite count_occ_cons_neq by discriminate.
    rewrite (IH k2 Hks). reflexivity.
Qed.

(** X5. When some sentence qualifies, the condensed text has one terminator
    for each kept sentence: at least one and at most five. *)
Theorem extract_key_info_terminators (text : list N) :
  sentences_of text <> [] ->
  1 <= count_occ N.eq_dec (extract_key_info text) dot <= 5 /\
  count_occ N.eq_dec (extract_key_info text) dot
  = Nat.min 5 (length (sentences_of text)).
Proof.
  intros Hne. unfold extract_key_info.
  destruct (firstn 5 (sentences_of text)) as [|k ks] eqn:E.
  - exfalso. apply Hne. destruct (sentences_of text); [reflexivity | discriminate E].
  - assert (Hs : Forall is_sentence (k :: ks)).
    { rewrite <- E. apply Forall_take, sentences_of_are_sentences. }
    rewrite (count_occ_join k ks Hs).
    assert (Hlen : length (k :: ks) = Nat.min 5 (length (sentences_of text))).
    { rewrite <- E. apply length_take. }
    rewrite Hlen. cbn [length] in Hlen. lia.
Qed.

Lemma extract_key_info_terminators_witness :
  sentences_of france_search_result <> [] /\
  count_occ N.eq_dec (extract_key_info france_search_result) dot
  = Nat.min 5 (length (sentences_of france_search_result)).
Proof.
  assert (H : sentences_of france_search_result <> []).
  { rewrite france_sentences_of. discriminate. }
  split; [exact H|].
  exact (proj2 (extract_key_info_terminators france_search_result H)).
Defined.

(** * Further properties of the character-budget cut *)

Local Open Scope Z_scope.

Lemma slice_to_length (s : list N) (stop : Z) : len (slice_to s stop) <= len s.
Proof.
  unfold slice_to, len. destruct (0 <=? stop); rewrite length_take; lia.
Qed.

Lemma window_length (s : list N) (max_chars : Z) :
  0 <= max_chars < len s ->
  len (firstn (Z.to_nat max_chars) s) = max_chars.
Proof. unfold len. intros H. rewrite length_take. lia. Qed.

(** X6. The result of a cut exceeds the budget by at most the three
    characters of the ellipsis. *)
Theorem truncate_search_results_length (s r : list N) (max_chars : Z) :
  0 <= max_chars ->
  truncate_search_results s max_chars = Ok r ->
  len r <= max_chars + 3.
Proof.
  intros Hmax. unfold truncate_search_results.
  destruct (Z.leb_spec (len s) max_chars) as [Hle|Hgt].
  - intros E. injection E as <-. lia.
  - rewrite (slice_to_nonneg s max_chars Hmax).
    pose proof (window_length s max_chars (conj Hmax Hgt)) as Hw.
    set (window := firstn (Z.to_nat max_chars) s) in *.
    destruct (past_70_percent (rfind dot window) max_chars) as [[|]|e];
      intros E; [| |discriminate E]; injection E as <-.
    + pose proof (slice_to_length window (rfind dot window + 1)). lia.
    + unfold len in *. rewrite length_app.
      change (length (py "...")) with 3%nat. lia.
Qed.

Lemma truncate_search_results_length_witness :
  0 <= 25 /\
  truncate_search_results
    (py "One. Two three four five six seven eight nine ten") 25
  = Ok (py "One. Two three four five ...") /\
  len (py "One. Two three four five ...") <= 25 + 3.
Proof.
  assert (H0 : 0 <= 25) by lia.
  assert (H : truncate_search_results
                (py "One. Two three four five six seven eight nine ten") 25
              = Ok (py "One. Two three four five ..."))
    by (vm_compute; reflexivity).
  split; [exact H0|]. split; [exact H|].
  exact (truncate_search_results_length _ _ 25 H0 H).
Defined.

(** X7. Cutting is idempotent: a text that was cut to a budget is left as
    it is by a second cut to the same budget (also when it carries the
    ellipsis and so is longer than the budget). *)
Theorem truncate_search_results_idempotent (s r : list N) (max_chars : Z) :
  0 <= max_chars ->
  truncate_search_results s max_chars = Ok r ->
  truncate_search_results r max_chars = Ok r.
Proof.
  intros Hmax. unfold truncate_search_results at 1.
  destruct (Z.leb_spec (len s) max_chars) as [Hle|Hgt].
  - intros E. injection E as <-. unfold truncate_search_results.
    destruct (Z.leb_spec (len s) max_chars); [reflexivity | lia].
  - rewrite (slice_to_nonneg s max_chars Hmax).
    pose proof (window_length s max_chars (conj Hmax Hgt)) as Hw.
    set (window := firstn (Z.to_nat max_chars) s) in *.
    destruct (past_70_percent (rfind dot window) max_chars) as [[|]|e] eqn:Ht;
      intros E; [| |discriminate E]; injection E as <-.
    + pose proof (slice_to_length window (rfind dot window + 1)).
      unfold truncate_search_results.
      destruct (Z.leb_spec (len (slice_to window (rfind dot window + 1))) max_chars);
        [reflexivity | lia].
    + unfold truncate_search_results.
      assert (Hlen : len (window ++ py "...") = max_chars + 3).
      { unfold len in *. rewrite length_app.
        change (length (py "...")) with 3%nat. lia. }
      destruct (Z.leb_spec (len (window ++ py "...")) max_chars); [lia|].
      rewrite (slice_to_nonneg _ max_chars Hmax).
      assert (Hfirst : firstn (Z.to_nat max_chars) (window ++ py "...") = window).
      { rewrite firstn_app.
        replace (Z.to_nat max_chars - length window)%nat with 0%nat
          by (unfold len in Hw; lia).
        rewrite firstn_all2 by (unfold len in Hw; lia).
        cbn [firstn]. apply app_nil_r. }
      rewrite Hfirst, Ht. reflexivity.
Qed.

Lemma truncate_search_results_idempotent_witness :
  0 <= 25 /\
  truncate_search_results
    (py "One. Two three four five six seven eight nine ten") 25
  = Ok (py "One. Two three four five ...") /\
  truncate_search_results (py "One. Two three four five ...") 25
  = Ok (py "One. Two three four five ...").
Proof.
  assert (H0 : 0 <= 25) by lia.
  assert (H : truncate_search_results
                (py "One. Two three four five six seven eight nine ten") 25
              = Ok (py "One. Two three four five ..."))
    by (vm_compute; reflexivity).
  split; [exact H0|]. split; [exact H|].
  exact (truncate_search_results_idempotent _ _ 25 H0 H).
Defined.

(** X8. Below [2 ^ 49] the float test of line 35 decides the exact
    comparison [last_period > 7/10 * max_chars], except when the terminator
    sits exactly on the 70 percent mark, where the rounding of
    [max_chars * 0.7] decides. *)
Theorem past_70_percent_agrees (last_period max_chars : Z) :
  0 <= max_chars < 2 ^ 49 ->
  10 * last_period <> 7 * max_chars ->
  past_70_percent last_period max_chars
  = Ok (7 * max_chars <? 10 * last_period).
Proof. apply past_70_percent_exact. Qed.

Lemma past_70_percent_agrees_witness :
  (0 <= 1500 < 2 ^ 49 /\ 10 * 1051 <> 7 * 1500) /\
  past_70_percent 1051 1500 = Ok (7 * 1500 <? 10 * 1051).
Proof.
  assert (H1 : 0 <= 1500 < 2 ^ 49) by (split; [lia | reflexivity]).
  assert (H2 : 10 * 1051 <> 7 * 1500) by lia.
  split; [split; assumption|].
  exact (past_70_percent_agrees 1051 1500 H1 H2).
Defined.

(** X9. A cut that ends at a sentence keeps more than 70 percent of the
    budget: for a budget below [2 ^ 49] that the text exceeds, the result
    is either the whole window with the ellipsis, or a prefix of the text
    that ends with the terminator, fits the budget and is longer than
    [7/10] of it. *)
Theorem truncate_search_results_keeps_70_percent
    (s r : list N) (max_chars : Z) :
  0 <= max_chars < 2 ^ 49 -> max_chars < len s ->
  truncate_search_results s max_chars = Ok r ->
  r = firstn (Z.to_nat max_chars) s ++ py "..."
  \/
  (ends_with_dot r /\ (exists rest, s = r ++ rest) /\
   len r <= max_chars /\ 7 * max_chars < 10 * len r).
Proof.
  intros Hmax Hgt. unfold truncate_search_results.
  destruct (Z.leb_spec (len s) max_chars) as [Hle|_]; [lia|].
  rewrite (slice_to_nonneg s max_chars) by lia.
  pose proof (window_length s max_chars) as Hw.
  set (window := firstn (Z.to_nat max_chars) s) in *.
  assert (H63 : 2 ^ 49 < 2 ^ 63) by reflexivity.
  destruct (rfind_spec dot window)
    as [[Hr Hno] | (pre & post & Hwin & Hpost & Hr)]; rewrite Hr.
  - rewrite past_70_percent_negative by lia.
    intros E. injection E as <-. left. reflexivity.
  - destruct (past_70_percent (len pre) max_chars) as [[|]|e] eqn:Ht;
      intros E; [| |discriminate E]; injection E as <-.
    + right. rewrite Hwin, firstn_through.
      assert (Hlen : len (pre ++ [dot]) = len pre + 1).
      { unfold len. rewrite length_app. cbn [length]. lia. }
      assert (Hwlen : len window = len pre + 1 + len post).
      { rewrite Hwin. unfold len. rewrite length_app. cbn [length]. lia. }
      repeat split.
      * apply ends_with_dot_snoc.
      * exists (post ++ skipn (Z.to_nat max_chars) s).
        rewrite <- (firstn_skipn (Z.to_nat max_chars) s) at 1.
        fold window. rewrite Hwin, <- !app_assoc. reflexivity.
      * unfold len in *. lia.
      * rewrite Hlen.
        destruct (Z.eq_dec (10 * len pre) (7 * max_chars)) as [Heq|Hne];
          [lia|].
        rewrite (past_70_percent_exact _ _ Hmax Hne) in Ht.
        injection Ht as Ht. apply Z.ltb_lt in Ht. lia.
    + left. reflexivity.
Qed.

Lemma truncate_search_results_keeps_70_percent_witness :
  let s := py "One. Two three four. Five six seven eight nine ten" in
  let r := py "One. Two three four." in
  (0 <= 25 < 2 ^ 49 /\ 25 < len s /\ truncate_search_results s 25 = Ok r) /\
  (r = firstn (Z.to_nat 25) s ++ py "..."
   \/
   (ends_with_dot r /\ (exists rest, s = r ++ rest) /\
    len r <= 25 /\ 7 * 25 < 10 * len r)).
Proof.
  intros s r.
  assert (H1 : 0 <= 25 < 2 ^ 49) by (split; [lia | reflexivity]).
  assert (H2 : 25 < len s) by reflexivity.
  assert (H3 : truncate_search_results s 25 = Ok r) by (vm_compute; reflexivity).
  split; [exact (conj H1 (conj H2 H3))|].
  exact (truncate_search_results_keeps_70_percent s r 25 H1 H2 H3).
Defined.

(** * Further properties of the turn processor *)

Local Open Scope nat_scope.

(** The length of the prompt: the two texts and the fixed template. *)
Lemma system_prompt_length (r q : list N) :
  length (system_prompt r q) = length r + length q + 320.
Proof.
  unfold system_prompt. rewrite !length_app.
  set (a := py _). set (b := py _). set (c := py _).
  assert (Ha : length a = 118) by (vm_compute; reflexivity).
  assert (Hb : length b = 17) by (vm_compute; reflexivity).
  assert (Hc : length c = 185) by (vm_compute; reflexivity).
  lia.
Qed.

Section TurnExtras.
Context {World : Type}.
Variable search_tool : list N -> World -> result (list N) * World.
Variable language_model : list N -> World -> result response * World.

(** X10. A turn on a conversation that is not empty calls each collaborator
    exactly once, the search first, and never retries: the search gets the
    question of the last message, the model gets the prompt built from what
    the search gave and that question, and the prompt contains both. *)
Theorem chatbot_calls_each_collaborator_once (state : State) (w : World) :
  messages state <> [] ->
  exists last_message found answer,
    last (messages state) = Some last_message /\
    calls_of search_tool language_model (chatbot state) w
    = [ SearchCall (user_question_of last_message) found;
        LlmCall (system_prompt (condensed_of found)
                   (user_question_of last_message)) answer ] /\
    occurs_in (user_question_of last_message)
      (system_prompt (condensed_of found) (user_question_of last_message)) /\
    occurs_in (condensed_of found)
      (system_prompt (condensed_of found) (user_question_of last_message)).
Proof.
  intros Hne.
  destruct (run_chatbot_ex search_tool language_model state w Hne)
    as (m & r & r' & w2 & Hm & Hrun).
  exists m, r, r'. unfold calls_of. rewrite Hrun. cbn [snd].
  split; [exact Hm|]. split; [reflexivity|]. split.
  - apply system_prompt_embeds_question.
  - apply system_prompt_embeds_result.
Qed.

(** X11. A turn looks at the last message only: two conversations whose
    last messages carry the same question make the same calls, leave the
    world in the same state and append the same reply. *)
Theorem chatbot_uses_last_message_only
    (state1 state2 : State) (m1 m2 : message) (w : World) :
  last (messages state1) = Some m1 ->
  last (messages state2) = Some m2 ->
  user_question_of m1 = user_question_of m2 ->
  exists reply w' calls,
    run search_tool language_model (chatbot state1) w
    = (Ok {| messages := messages state1 ++ [reply] |}, w', calls) /\
    run search_tool language_model (chatbot state2) w
    = (Ok {| messages := messages state2 ++ [reply] |}, w', calls).
Proof.
  intros H1 H2 Hq.
  destruct (search_tool (user_question_of m1) w) as [r w1] eqn:Hs.
  destruct (language_model
              (system_prompt (condensed_of r) (user_question_of m1)) w1)
    as [r' w2] eqn:Hl.
  exists (Message AIMessage (reply_of r')), w2,
    [ SearchCall (user_question_of m1) r;
      LlmCall (system_prompt (condensed_of r) (user_question_of m1)) r' ].
  split.
  - exact (run_chatbot search_tool language_model state1 m1 w w1 w2 r r'
             H1 Hs Hl).
  - rewrite Hq in *.
    exact (run_chatbot search_tool language_model state2 m2 w w1 w2 r r'
             H2 Hs Hl).
Qed.

(** X12. When the model answers, the appended assistant message carries
    the content of the answer as it is (or the text of an answer without a
    content), whatever the search did. *)
Theorem chatbot_reply_is_model_content (state : State) (w : World)
    (prompt : list N) (lc_response : response) :
  messages state <> [] ->
  In (LlmCall prompt (Ok lc_response))
    (calls_of search_tool language_model (chatbot state) w) ->
  outcome search_tool language_model (chatbot state) w
  = Ok {| messages :=
            messages state ++ [Message AIMessage (content_of lc_response)] |}.
Proof.
  intros Hne Hin.
  destruct (run_chatbot_ex search_tool language_model state w Hne)
    as (m & r & r' & w2 & _ & Hrun).
  unfold calls_of, outcome in *. rewrite Hrun in *. cbn [fst snd] in *.
  destruct Hin as [Hin|[Hin|[]]]; [discriminate Hin|].
  injection Hin as _ Hr. subst r'. reflexivity.
Qed.

(** X13. When the search answers, the model is asked with the prompt built
    from the condensed answer, and the prompt is at most 325 characters
    longer than the raw search result and the question together. *)
Theorem chatbot_search_success (state : State) (w : World)
    (query raw_search_result : list N) :
  messages state <> [] ->
  In (SearchCall query (Ok raw_search_result))
    (calls_of search_tool language_model (chatbot state) w) ->
  exists answer,
    calls_of search_tool language_model (chatbot state) w
    = [ SearchCall query (Ok raw_search_result);
        LlmCall (system_prompt (extract_key_info raw_search_result) query)
          answer ] /\
    length (system_prompt (extract_key_info raw_search_result) query)
    <= length raw_search_result + length query + 325.
Proof.
  intros Hne Hin.
  destruct (run_chatbot_ex search_tool language_model state w Hne)
    as (m & r & r' & w2 & _ & Hrun).
  unfold calls_of in *. rewrite Hrun in *. cbn [snd] in *.
  destruct Hin as [Hin|[Hin|[]]]; [|discriminate Hin].
  injection Hin as Hq Hr. subst r. rewrite Hq.
  exists r'. split; [reflexivity|].
  rewrite system_prompt_length.
  pose proof (condensed_length raw_search_result). lia.
Qed.

End TurnExtras.

Lemma chatbot_calls_each_collaborator_once_witness :
  messages france_state <> [] /\
  exists last_message found answer,
    last (messages france_state) = Some last_message /\
    calls_of search_down model_down (chatbot france_state) 0
    = [ SearchCall (user_question_of last_message) found;
        LlmCall (system_prompt (condensed_of found)
                   (user_question_of last_message)) answer ] /\
    occurs_in (user_question_of last_message)
      (system_prompt (condensed_of found) (user_question_of last_message)) /\
    occurs_in (condensed_of found)
      (system_prompt (condensed_of found) (user_question_of last_message)).
Proof.
  assert (H : messages france_state <> []) by discriminate.
  split; [exact H|].
  exact (chatbot_calls_each_collaborator_once search_down model_down
           france_state 0 H).
Defined.

Lemma chatbot_uses_last_message_only_witness :
  let state2 :=
    {| messages := [Message AIMessage greeting; RawValue france_question] |} in
  exists reply w' calls,
    run search_france model_paris (chatbot france_state) 0
    = (Ok {| messages := messages france_state ++ [reply] |}, w', calls) /\
    run search_france model_paris (chatbot state2) 0
    = (Ok {| messages := messages state2 ++ [reply] |}, w', calls).
Proof.
  intros state2.
  exact (chatbot_uses_last_message_only search_france model_paris
           france_state state2
           (Message HumanMessage france_question) (RawValue france_question)
           0 eq_refl eq_refl eq_refl).
Defined.

Lemma chatbot_reply_is_model_content_witness :
  outcome search_down model_paris (chatbot france_state) 0
  = Ok {| messages :=
            messages france_state ++
            [Message AIMessage (content_of (WithContent (py "Paris.")))] |}.
Proof.
  apply (chatbot_reply_is_model_content search_down model_paris france_state 0
           (system_prompt search_fallback france_question)
           (WithContent (py "Paris."))).
  - discriminate.
  - right. left. reflexivity.
Defined.

Lemma chatbot_search_success_witness :
  exists answer,
    calls_of search_france model_down (chatbot france_state) 0
    = [ SearchCall france_question (Ok france_search_result);
        LlmCall (system_prompt (extract_key_info france_search_result)
                   france_question) answer ] /\
    length (system_prompt (extract_key_info france_search_result)
              france_question)
    <= length france_search_result + length france_question + 325.
Proof.
  apply (chatbot_search_success search_france model_down france_state 0
           france_question france_search_result).
  - discriminate.
  - left. reflexivity.
Defined.

(** * The input handler of the script *)

Section RunFacts.
Context {World : Type}.
Variable search_tool : list N -> World -> result (list N) * World.
Variable language_model : list N -> World -> result response * World.

(** Running [try: body / except: handler]. *)
Lemma run_try_except {A : Type} (body : turn A) (handler : exn -> turn A)
    (w : World) :
  run search_tool language_model (try_except body handler) w
  = let '(r, w1, calls1) := run search_tool language_model body w in
    match r with
    | Ok a => (Ok a, w1, calls1)
    | Raised e =>
        let '(r2, w2, calls2) := run search_tool language_model (handler e) w1 in
        (r2, w2, calls1 ++ calls2)
    end.
Proof.
  revert w. induction body as [a|e|q k IH|p k IH]; intros w; cbn [try_except run].
  - reflexivity.
  - destruct (run search_tool language_model (handler e) w) as [[r2 w2] c2].
    reflexivity.
  - destruct (search_tool q w) as [r w1]. rewrite IH.
    destruct (run search_tool language_model (k r) w1) as [[[a|e] w2] c1];
      [reflexivity|].
    destruct (run search_tool language_model (handler e) w2) as [[r2 w3] c2].
    reflexivity.
  - destruct (language_model p w) as [r w1]. rewrite IH.
    destruct (run search_tool language_model (k r) w1) as [[[a|e] w2] c1];
      [reflexivity|].
    destruct (run search_tool language_model (handler e) w2) as [[r2 w3] c2].
    reflexivity.
Qed.

(** Running one computation after another. *)
Lemma run_bind {A B : Type} (t : turn A) (f : A -> turn B) (w : World) :
  run search_tool language_model (bind t f) w
  = let '(r, w1, calls1) := run search_tool language_model t w in
    match r with
    | Ok a =>
        let '(r2, w2, calls2) := run search_tool language_model (f a) w1 in
        (r2, w2, calls1 ++ calls2)
    | Raised e => (Raised e, w1, calls1)
    end.
Proof.
  revert w. induction t as [a|e|q k IH|p k IH]; intros w; cbn [bind run].
  - destruct (run search_tool language_model (f a) w) as [[r2 w2] c2].
    reflexivity.
  - reflexivity.
  - destruct (search_tool q w) as [r w1]. rewrite IH.
    destruct (run search_tool language_model (k r) w1) as [[[a|e] w2] c1];
      [|reflexivity].
    destruct (run search_tool language_model (f a) w2) as [[r2 w3] c2].
    reflexivity.
  - destruct (language_model p w) as [r w1]. rewrite IH.
    destruct (run search_tool language_model (k r) w1) as [[[a|e] w2] c1];
      [|reflexivity].
    destruct (run search_tool language_model (f a) w2) as [[r2 w3] c2].
    reflexivity.
Qed.

Lemma run_attempt {A : Type} (t : turn A) (w : World) :
  run search_tool language_model (attempt t) w
  = let '(r, w1, calls1) := run search_tool language_model t w in
    (Ok r, w1, calls1).
Proof.
  unfold attempt. rewrite run_try_except, run_bind.
  destruct (run search_tool language_model t w) as [[[a|e] w1] c1];
    cbn [run]; rewrite app_nil_r; reflexivity.
Qed.

(** What the handler makes of the answer of the graph. *)
Lemma run_answer_input (graph_invoke : State -> turn State)
    (lc_messages : list message) (user_input : list N) (w : World) :
  run search_tool language_model
    (answer_input graph_invoke lc_messages user_input) w
  = let with_input := lc_messages ++ [Message HumanMessage user_input] in
    let '(r, w1, calls1) :=
      run search_tool language_model
        (graph_invoke {| messages := with_input |}) w in
    (Ok match r with
        | Raised _ => with_input ++ [Message AIMessage ui_error_msg]
        | Ok new_state =>
            match last_content (messages new_state) with
            | Ok _ => messages new_state
            | Raised _ => messages new_state ++ [Message AIMessage ui_error_msg]
            end
        end,
     w1, calls1).
Proof.
  unfold answer_input. rewrite run_bind, run_attempt.
  destruct (run search_tool language_model
              (graph_invoke
                 {| messages := lc_messages ++ [Message HumanMessage user_input] |})
              w) as [[[new_state|e] w1] c1].
  - rewrite run_try_except.
    destruct (last_content (messages new_state)) as [c|e];
      cbn [of_result bind run]; rewrite ?app_nil_r; reflexivity.
  - cbn [run]. rewrite app_nil_r. reflexivity.
Qed.

End RunFacts.


Lemma on_user_input_some (graph_invoke : State -> turn State)
    (lc_messages : list message) (user_text : list N) :
  user_text <> [] ->
  on_user_input graph_invoke lc_messages (Some user_text)
  = answer_input graph_invoke lc_messages user_text.
Proof. destruct user_text; [congruence | reflexivity]. Qed.

Section InputHandler.
Context {World : Type}.
Variable search_tool : list N -> World -> result (list N) * World.
Variable language_model : list N -> World -> result response * World.
Variable graph_invoke : State -> turn State.

(** X14. When the user submitted a text and the graph raises, the handler
    answers for it: the conversation gets the user message and the
    apology, and the handler returns normally. *)
Theorem on_user_input_graph_failure
    (lc_messages : list message) (user_text : list N) (w : World) (e : exn) :
  user_text <> [] ->
  outcome search_tool language_model
    (graph_invoke
       {| messages := lc_messages ++ [Message HumanMessage user_text] |}) w
  = Raised e ->
  outcome search_tool language_model
    (on_user_input graph_invoke lc_messages (Some user_text)) w
  = Ok (lc_messages ++
        [ Message HumanMessage user_text;
          Message AIMessage
            (py "I'm experiencing technical difficulties. Please try again in a moment.") ]).
Proof.
  intros Hne. rewrite (on_user_input_some _ _ _ Hne).
  unfold outcome. rewrite run_answer_input. cbv zeta.
  destruct (run search_tool language_model
              (graph_invoke
                 {| messages := lc_messages ++ [Message HumanMessage user_text] |})
              w) as [[r w1] c1].
  cbn [fst]. intros ->. rewrite <- app_assoc. reflexivity.
Qed.

(** X15. The handler never raises, whatever the input and whatever the
    graph does.  Without an input ([None] or the empty string) the
    conversation is unchanged and nothing is called.  With an input the
    only calls are those of the graph, and the conversation is not empty
    afterwards: the old conversation with the user message and the apology
    when the graph raised; the messages the graph returned when their last
    one is an object with a content; those messages followed by the apology
    when they are empty or their last one has no content. *)
Theorem on_user_input_never_raises
    (lc_messages : list message) (user_input : option (list N)) (w : World) :
  exists lc_messages' w' calls,
    run search_tool language_model
      (on_user_input graph_invoke lc_messages user_input) w
    = (Ok lc_messages', w', calls) /\
    match user_input with
    | Some (c :: rest) =>
        exists invoked,
          run search_tool language_model
            (graph_invoke
               {| messages :=
                    lc_messages ++ [Message HumanMessage (c :: rest)] |}) w
          = (invoked, w', calls) /\
          lc_messages' <> [] /\
          lc_messages'
          = match invoked with
            | Raised _ =>
                lc_messages ++
                [ Message HumanMessage (c :: rest);
                  Message AIMessage ui_error_msg ]
            | Ok new_state =>
                match last (messages new_state) with
                | Some (Message _ _) => messages new_state
                | _ => messages new_state ++ [Message AIMessage ui_error_msg]
                end
            end
    | _ => lc_messages' = lc_messages /\ w' = w /\ calls = []
    end.
Proof.
  destruct user_input as [[|c rest]|].
  - exists lc_messages, w, []. repeat split.
  - cbn [on_user_input]. rewrite run_answer_input. cbv zeta.
    destruct (run search_tool language_model
                (graph_invoke
                   {| messages :=
                        lc_messages ++ [Message HumanMessage (c :: rest)] |})
                w) as [[r w1] c1].
    eexists _, w1, c1. split; [reflexivity|].
    exists r. split; [reflexivity|]. split.
    + destruct r as [new_state|e].
      * unfold last_content.
        destruct (last (messages new_state)) as [m|] eqn:E.
        -- assert (Hne : messages new_state <> []).
           { intros H. rewrite H in E. discriminate E. }
           destruct m; [exact Hne | |];
             intros H; apply app_eq_nil in H; destruct H as [_ H];
             discriminate H.
        -- intros H. apply app_eq_nil in H. destruct H as [_ H].
           discriminate H.
      * intros H. apply app_eq_nil in H. destruct H as [_ H]. discriminate H.
    + destruct r as [new_state|e].
      * unfold last_content.
        destruct (last (messages new_state)) as [[cls content|fields|text]|];
          reflexivity.
      * rewrite <- app_assoc. reflexivity.
  - exists lc_messages, w, []. repeat split.
Qed.

(** The graph has one node: the hypothesis that invoking it is running
    [chatbot] on the state. *)
Hypothesis graph_runs_chatbot : forall state, graph_invoke state = chatbot state.

Lemma on_user_input_complete_turn_aux
    (lc_messages : list message) (user_text : list N) (w : World) :
  user_text <> [] ->
  exists found answer w',
    run search_tool language_model
      (on_user_input graph_invoke lc_messages (Some user_text)) w
    = (Ok (lc_messages ++
           [ Message HumanMessage user_text;
             Message AIMessage (reply_of answer) ]),
       w',
       [ SearchCall user_text found;
         LlmCall (system_prompt (condensed_of found) user_text) answer ]).
Proof.
  intros Hne. rewrite (on_user_input_some _ _ _ Hne).
  rewrite run_answer_input. cbv zeta. rewrite graph_runs_chatbot.
  set (state := {| messages := lc_messages ++ [Message HumanMessage user_text] |}).
  destruct (search_tool user_text w) as [r w1] eqn:Hs.
  destruct (language_model (system_prompt (condensed_of r) user_text) w1)
    as [r' w2] eqn:Hl.
  rewrite (run_chatbot search_tool language_model state
             (Message HumanMessage user_text) w w1 w2 r r'
             (last_snoc _ _) Hs Hl).
  exists r, r', w2. cbn [messages user_question_of]. unfold last_content.
  rewrite last_snoc. unfold state. cbn [messages].
  rewrite <- app_assoc. reflexivity.
Qed.

(** X16. With the graph running its node, a submitted text gives one
    search for the text itself and one call of the model, and the
    conversation grows by the user message and the reply. *)
Theorem on_user_input_complete_turn
    (lc_messages : list message) (user_text : list N) (w : World) :
  user_text <> [] ->
  exists found answer w',
    run search_tool language_model
      (on_user_input graph_invoke lc_messages (Some user_text)) w
    = (Ok (lc_messages ++
           [ Message HumanMessage user_text;
             Message AIMessage (reply_of answer) ]),
       w',
       [ SearchCall user_text found;
         LlmCall (system_prompt (condensed_of found) user_text) answer ]).
Proof. apply on_user_input_complete_turn_aux. Qed.


End InputHandler.

Lemma on_user_input_graph_failure_witness :
  (france_question <> [] /\
   outcome search_france model_paris
     (graph_down
        {| messages := one_turn ++ [Message HumanMessage france_question] |}) 0
   = Raised (Exception (py "graph execution failed"))) /\
  outcome search_france model_paris
    (on_user_input graph_down one_turn (Some france_question)) 0
  = Ok (one_turn ++
        [ Message HumanMessage france_question;
          Message AIMessage
            (py "I'm experiencing technical difficulties. Please try again in a moment.") ]).
Proof.
  assert (H : france_question <> []) by discriminate.
  split; [split; [exact H | reflexivity]|].
  exact (on_user_input_graph_failure search_france model_paris graph_down
           one_turn france_question 0 (Exception (py "graph execution failed"))
           H eq_refl).
Defined.

Lemma on_user_input_complete_turn_witness :
  france_question <> [] /\
  exists found answer w',
    run search_france model_paris
      (on_user_input chatbot one_turn (Some france_question)) 0
    = (Ok (one_turn ++
           [ Message HumanMessage france_question;
             Message AIMessage (reply_of answer) ]),
       w',
       [ SearchCall france_question found;
         LlmCall (system_prompt (condensed_of found) france_question) answer ]).
Proof.
  assert (H : france_question <> []) by discriminate.
  split; [exact H|].
  exact (on_user_input_complete_turn search_france model_paris chatbot
           (fun state => eq_refl) one_turn france_question 0 H).
Defined.


Example on_user_input_nothing_submitted :
  on_user_input chatbot one_turn None = Return one_turn
  /\ on_user_input chatbot one_turn (Some (py "")) = Return one_turn.
Proof. split; reflexivity. Qed.
